(** * pixian-ai: parameter validation and the background-removal call

    A shallow embedding of [pixian_ai/utils.py] and [pixian_ai/client.py].

    - [py]       the Python values, exceptions and built-in operations the
                 two modules use;
    - [unidata]  the two classes of the interpreter's Unicode database
                 the patterns rely on;
    - [re]       the fragment of Python's [re] module the validators use:
                 patterns, a matcher, [match] and [fullmatch];
    - [requests] the HTTP collaborator: requests, responses, status codes;
    - [io]       files, the network, and computations with effects;
    - [utils]    [pixian_ai/utils.py];
    - [client]   [pixian_ai/client.py];
    - [spec]     the grammars of the specification, in its own words;
    - [call]     vocabulary for statements about one call;
    - [example]  concrete calls.

    A Python [str] is the list of its code points ([list N], written
    [unicode]); [u "..."] is the [str] of an ASCII literal. Byte strings
    are [list byte], Python's [int] is [Z] and [float] is the binary64
    type [float]. *)

From Stdlib Require Import String Ascii List ZArith NArith Lia Bool.
From Stdlib.Strings Require Import Byte.
From Stdlib Require Import PrimFloat FloatOps SpecFloat DecimalString.
From stdpp Require Import gmap.

Import ListNotations.

(* ================================================================== *)
(** * Python values and built-ins *)
(* ================================================================== *)

Module py.

(** A [str]: its code points, in order. Code points lie below
    [0x110000]; no character class holds beyond. *)
Abbreviation unicode := (list N).

(** The code point of an ASCII character, and the [str] of an ASCII
    literal. *)
Definition chr (c : ascii) : N := N_of_ascii c.

Definition u (s : string) : unicode := map N_of_ascii (list_ascii_of_string s).

(** [s == t] on [str]. *)
Fixpoint text_eqb (s t : unicode) : bool :=
  match s, t with
  | [], [] => true
  | a :: s', b :: t' => (a =? b)%N && text_eqb s' t'
  | _, _ => false
  end.

(** [s <= t] on [str]: lexicographic, by code point. *)
Fixpoint text_leb (s t : unicode) : bool :=
  match s, t with
  | [], _ => true
  | _ :: _, [] => false
  | a :: s', b :: t' =>
      if (a <? b)%N then true
      else if (a =? b)%N then text_leb s' t'
      else false
  end.

(** [sep.join(items)] *)
Fixpoint join (sep : unicode) (items : list unicode) : unicode :=
  match items with
  | [] => []
  | [x] => x
  | x :: rest => x ++ sep ++ join sep rest
  end.

(** The values that reach the validators: [None], [bool], [int],
    [float] and [str]. *)
Inductive pyval :=
| VNone
| VBool (b : bool)
| VInt (n : Z)
| VFloat (f : float)
| VStr (s : unicode).

(** The exceptions the two modules raise or let through.
    [FileNotFoundError], [IsADirectoryError] and [PermissionError]
    (all three are [OSError]s) carry the file name, the others their
    message; [RequestException] stands for the errors of the HTTP
    library. *)
Inductive pyexn :=
| TypeError (message : unicode)
| ValueError (message : unicode)
| FileNotFoundError (filename : unicode)
| IsADirectoryError (filename : unicode)
| PermissionError (filename : unicode)
| OSError (message : unicode)
| RequestException (message : unicode)
| PixianAIException (message : unicode).

(** A computation that returns or raises. *)
Inductive result (A : Type) :=
| Ok (a : A)
| Raise (e : pyexn).
Arguments Ok {A} a.
Arguments Raise {A} e.

Definition result_bind {A B} (f : A -> result B) (m : result A) : result B :=
  match m with
  | Ok a => f a
  | Raise e => Raise e
  end.

#[global] Instance result_mret : MRet result := fun A a => Ok a.
#[global] Instance result_mbind : MBind result := fun A B f m => result_bind f m.

(** [type(v).__name__] *)
Definition type_name (v : pyval) : unicode :=
  match v with
  | VNone => u "NoneType"
  | VBool _ => u "bool"
  | VInt _ => u "int"
  | VFloat _ => u "float"
  | VStr _ => u "str"
  end.

(** [bool(v)]: [None], [False], zero of either sign and the empty
    string are falsy; NaN is truthy. *)
Definition truthy (v : pyval) : bool :=
  match v with
  | VNone => false
  | VBool b => b
  | VInt n => negb (n =? 0)%Z
  | VFloat f => negb (PrimFloat.eqb f 0%float)
  | VStr [] => false
  | VStr (_ :: _) => true
  end.

(** [any(l)] *)
Definition any (l : list pyval) : bool := existsb truthy l.

Section Str.

(** [repr] of a float (the shortest decimal string that reads back
    to the same float) belongs to the interpreter, not to this
    repository; it is a parameter of everything that formats a
    value. *)
Variable float_repr : float -> unicode.

(** [str(v)], also what an f-string field [{v}] renders. *)
Definition str (v : pyval) : unicode :=
  match v with
  | VNone => u "None"
  | VBool true => u "True"
  | VBool false => u "False"
  | VInt n => u (NilZero.string_of_int (Z.to_int n))
  | VFloat f => float_repr f
  | VStr s => s
  end.

End Str.

(** ** Numbers

    [bool] is a subclass of [int]; comparisons between [int] and
    [float] are exact (no rounding of the integer). A finite float is
    [(-1)^s * m * 2^e]. *)

Inductive num :=
| NInt (z : Z)
| NFloat (f : float).

Definition as_num (v : pyval) : option num :=
  match v with
  | VBool b => Some (NInt (Z.b2z b))
  | VInt n => Some (NInt n)
  | VFloat f => Some (NFloat f)
  | VNone | VStr _ => None
  end.

Definition signed (s : bool) (m : positive) : Z :=
  if s then Z.neg m else Z.pos m.

(** [z <= f] *)
Definition int_le_float (z : Z) (f : float) : bool :=
  match Prim2SF f with
  | S754_nan => false
  | S754_infinity s => negb s
  | S754_zero _ => (z <=? 0)%Z
  | S754_finite s m e =>
      if (0 <=? e)%Z then (z <=? signed s m * 2 ^ e)%Z
      else (z * 2 ^ (- e) <=? signed s m)%Z
  end.

(** [f <= z] *)
Definition float_le_int (f : float) (z : Z) : bool :=
  match Prim2SF f with
  | S754_nan => false
  | S754_infinity s => s
  | S754_zero _ => (0 <=? z)%Z
  | S754_finite s m e =>
      if (0 <=? e)%Z then (signed s m * 2 ^ e <=? z)%Z
      else (signed s m <=? z * 2 ^ (- e))%Z
  end.

Definition num_le (a b : num) : bool :=
  match a, b with
  | NInt x, NInt y => (x <=? y)%Z
  | NInt x, NFloat g => int_le_float x g
  | NFloat f, NInt y => float_le_int f y
  | NFloat f, NFloat g => PrimFloat.leb f g
  end.

Definition num_eq (a b : num) : bool :=
  match a, b with
  | NInt x, NInt y => (x =? y)%Z
  | NInt x, NFloat g => int_le_float x g && float_le_int g x
  | NFloat f, NInt y => float_le_int f y && int_le_float y f
  | NFloat f, NFloat g => PrimFloat.eqb f g
  end.

(** [a <= b]: numbers with numbers, strings with strings (by code
    point); anything else raises [TypeError]. *)
Definition op_le (a b : pyval) : result bool :=
  match as_num a, as_num b with
  | Some x, Some y => Ok (num_le x y)
  | _, _ =>
      match a, b with
      | VStr s, VStr t => Ok (text_leb s t)
      | _, _ =>
          Raise (TypeError (u "'<=' not supported between instances of '"
                            ++ type_name a ++ u "' and '" ++ type_name b ++ u "'"))
      end
  end.

(** [a == b] *)
Definition op_eq (a b : pyval) : bool :=
  match as_num a, as_num b with
  | Some x, Some y => num_eq x y
  | _, _ =>
      match a, b with
      | VStr s, VStr t => text_eqb s t
      | VNone, VNone => true
      | _, _ => false
      end
  end.

(** [x in l] for a list [l]. Python tests identity before equality;
    among these values the two differ only for one NaN object met
    twice, and values here carry no identity. *)
Definition contains (l : list pyval) (x : pyval) : bool :=
  existsb (op_eq x) l.

(** The declared types of [remove_background]'s parameters. *)
Inductive annotation :=
| T_str
| T_int
| T_bool
| T_Union_str_None.

Definition isinstance (v : pyval) (t : annotation) : bool :=
  match t, v with
  | T_str, VStr _ => true
  | T_int, (VInt _ | VBool _) => true
  | T_bool, VBool _ => true
  | T_Union_str_None, (VStr _ | VNone) => true
  | _, _ => false
  end.

(** What an f-string renders for the annotation. *)
Definition annotation_str (t : annotation) : unicode :=
  match t with
  | T_str => u "<class 'str'>"
  | T_int => u "<class 'int'>"
  | T_bool => u "<class 'bool'>"
  | T_Union_str_None => u "typing.Optional[str]"
  end.

End py.

Import py.

(* ================================================================== *)
(** * The Unicode database *)
(* ================================================================== *)

Module unidata.

(** The two classes behind [\d] and [\s] belong to the interpreter,
    not to this repository. Whitespace is the same in every version
    of Python the package admits (above 3.6); the decimal digits grow
    with the Unicode standard, by the digits of newly encoded
    scripts. *)

(** The code points of the digit zero of every decimal number system
    (category Nd) of Unicode 14.0, the database of CPython 3.11; the
    digits one to nine follow each zero. *)
Definition zeros : list N :=
  [48; 1632; 1776; 1984; 2406; 2534; 2662; 2790; 2918; 3046; 3174; 3302; 3430;
   3558; 3664; 3792; 3872; 4160; 4240; 6112; 6160; 6470; 6608; 6784; 6800; 6992;
   7088; 7232; 7248; 42528; 43216; 43264; 43472; 43504; 43600; 44016; 65296;
   66720; 68912; 69734; 69872; 69942; 70096; 70384; 70736; 70864; 71248; 71360;
   71472; 71904; 72016; 72784; 73040; 73120; 92768; 92864; 93008; 120782;
   120792; 120802; 120812; 120822; 123200; 123632; 125264; 130032]%N.

(** [Py_UNICODE_ISDECIMAL]: a decimal digit of any script. *)
Definition decimal (c : N) : bool :=
  existsb (fun zero => (zero <=? c) && (c <? zero + 10))%N zeros.

(** [Py_UNICODE_ISSPACE]: TAB LF VT FF CR, FS GS RS US, SPACE, NEL,
    NBSP, OGHAM SPACE MARK, EN QUAD to HAIR SPACE, LINE and PARAGRAPH
    SEPARATOR, NARROW NO-BREAK SPACE, MEDIUM MATHEMATICAL SPACE and
    IDEOGRAPHIC SPACE. *)
Definition space (c : N) : bool :=
  existsb (N.eqb c)
    [9; 10; 11; 12; 13; 28; 29; 30; 31; 32; 133; 160; 5760;
     8192; 8193; 8194; 8195; 8196; 8197; 8198; 8199; 8200; 8201; 8202;
     8232; 8233; 8239; 8287; 12288]%N.

End unidata.

(* ================================================================== *)
(** * Regular expressions *)
(* ================================================================== *)

Module re.

(** The pattern syntax the validators use. [Rep r lo hi] is
    [r{lo,hi}]; [r+] is [Rep r 1 None], [r?] is [Rep r 0 (Some 1)].
    Groups only capture and are not represented. *)
Inductive regex :=
| Chr (c : N)
| Cls (f : N -> bool)
| Seq (r1 r2 : regex)
| Alt (r1 r2 : regex)
| Rep (r : regex) (lo : nat) (hi : option nat)
| Caret
| Dollar.

Definition between (lo hi : N) (c : N) : bool :=
  ((lo <=? c) && (c <=? hi))%N.

(** [\d] in a [str] pattern: any Unicode decimal digit. *)
Definition digit (c : N) : bool := unidata.decimal c.

(** [\s] in a [str] pattern: any Unicode whitespace character. *)
Definition space (c : N) : bool := unidata.space c.

(** [[0-9a-fA-F]] *)
Definition hexdigit (c : N) : bool :=
  between 48 57 c || between 97 102 c || between 65 70 c.

Definition newline : N := 10%N.

(** A position in the subject: the index and the text from there on. *)
Definition pos : Type := nat * unicode.

(** [$] without MULTILINE: the end of the string, or just before a
    newline that ends the string. *)
Definition at_end (t : unicode) : bool :=
  match t with
  | [] => true
  | [c] => N.eqb c newline
  | _ => false
  end.

(** ** The matcher

    [run r p] lists the positions at which a match of [r] that starts
    at [p] can end: every alternative the backtracking engine can
    reach. *)

Fixpoint power (f : pos -> list pos) (n : nat) (p : pos) : list pos :=
  match n with
  | O => [p]
  | S k => flat_map (power f k) (f p)
  end.

Fixpoint upto (f : pos -> list pos) (n : nat) (p : pos) : list pos :=
  p :: match n with
       | O => []
       | S k => flat_map (upto f k) (f p)
       end.

Definition advances (p q : pos) : bool := fst p <? fst q.

(** Unbounded repetition: an iteration that matches the empty string
    is not repeated, so the subject's length bounds the iterations. *)
Fixpoint star (f : pos -> list pos) (fuel : nat) (p : pos) : list pos :=
  p :: match fuel with
       | O => []
       | S k => flat_map (star f k) (List.filter (advances p) (f p))
       end.

Definition step (ok : N -> bool) (p : pos) : list pos :=
  match snd p with
  | c :: t => if ok c then [(S (fst p), t)] else []
  | [] => []
  end.

Fixpoint run (r : regex) (p : pos) : list pos :=
  match r with
  | Chr c => step (N.eqb c) p
  | Cls f => step f p
  | Seq r1 r2 => flat_map (run r2) (run r1 p)
  | Alt r1 r2 => run r1 p ++ run r2 p
  | Rep r lo None =>
      flat_map (fun q => star (run r) (length (snd q)) q) (power (run r) lo p)
  | Rep r lo (Some hi) =>
      if lo <=? hi then flat_map (upto (run r) (hi - lo)) (power (run r) lo p)
      else []
  | Caret => if fst p =? 0 then [p] else []
  | Dollar => if at_end (snd p) then [p] else []
  end.

(** [pattern.match(s)] is a match object (truthy) when some match
    starts at index 0, wherever it ends. *)
Definition match_ (r : regex) (s : unicode) : bool :=
  match run r (0, s) with
  | [] => false
  | _ :: _ => true
  end.

(** [pattern.fullmatch(s)]: some match starts at index 0 and ends at
    the end of the string. *)
Definition fullmatch (r : regex) (s : unicode) : bool :=
  existsb (fun q => match snd q with [] => true | _ => false end) (run r (0, s)).

(** ** What a pattern denotes *)

Fixpoint iter (R : pos -> pos -> Prop) (n : nat) (p q : pos) : Prop :=
  match n with
  | O => p = q
  | S k => exists m, R p m /\ iter R k m q
  end.

Definition within (n : nat) (hi : option nat) : Prop :=
  match hi with
  | Some h => n <= h
  | None => True
  end.

Fixpoint matches (r : regex) (p q : pos) : Prop :=
  match r with
  | Chr c => snd p = c :: snd q /\ fst q = S (fst p)
  | Cls f => exists c, f c = true /\ snd p = c :: snd q /\ fst q = S (fst p)
  | Seq r1 r2 => exists m, matches r1 p m /\ matches r2 m q
  | Alt r1 r2 => matches r1 p q \/ matches r2 p q
  | Rep r lo hi => exists n, lo <= n /\ within n hi /\ iter (matches r) n p q
  | Caret => p = q /\ fst p = 0
  | Dollar => p = q /\ (snd p = [] \/ snd p = [newline])
  end.

(** [q] lies [x] further along than [p]. *)
Definition span (p q : pos) (x : unicode) : Prop :=
  snd p = x ++ snd q /\ fst q = fst p + length x.

(** ** The words of a pattern without anchors *)

Fixpoint anchor_free (r : regex) : bool :=
  match r with
  | Chr _ | Cls _ => true
  | Seq r1 r2 | Alt r1 r2 => anchor_free r1 && anchor_free r2
  | Rep r _ _ => anchor_free r
  | Caret | Dollar => false
  end.

(** [words L n]: the concatenations of [n] words of [L]. *)
Fixpoint words (L : unicode -> Prop) (n : nat) (z : unicode) : Prop :=
  match n with
  | O => z = []
  | S k => exists x y, L x /\ words L k y /\ z = x ++ y
  end.

Fixpoint lang (r : regex) (z : unicode) : Prop :=
  match r with
  | Chr c => z = [c]
  | Cls f => exists c, f c = true /\ z = [c]
  | Seq r1 r2 => exists x y, lang r1 x /\ lang r2 y /\ z = x ++ y
  | Alt r1 r2 => lang r1 z \/ lang r2 z
  | Rep r lo hi => exists n, lo <= n /\ within n hi /\ words (lang r) n z
  | Caret | Dollar => z = []
  end.

End re.

(* ================================================================== *)
(** * The outside world: files and the HTTP library *)
(* ================================================================== *)

Module requests.

(** A file object opened for reading in binary mode. *)
Record file := { file_name : unicode; file_bytes : list byte }.

(** The arguments of one [requests.post] call. *)
Record Request := {
  url : unicode;
  data : gmap unicode pyval;
  files : gmap unicode file;
  auth : unicode * unicode
}.

(** What the library hands back: the status, the body as bytes and
    the body decoded as text. *)
Record Response := {
  status_code : Z;
  content : list byte;
  text : unicode
}.

(** [requests.codes.ok] *)
Definition codes_ok : Z := 200.

End requests.

Module io.

(** A regular file, whatever paths lead to it. *)
Abbreviation node := positive.

(** The state a call runs in.

    [for_reading] and [for_writing] are the operating system's answer
    to opening a path in that mode: the file the path leads to (there
    already or not), or the error the open raises (a missing
    directory, a directory, no permission, a name that is too long).
    Two paths may lead to one file. [disk] holds the content of the
    files that exist. The files are regular files on volumes with
    room: what is written to an open file is stored, and is what a
    later read finds. Devices and pipes are not part of this world.

    [network] is the server behind the HTTP library: its answer to a
    request, or the library's own error. [sent] lists the requests
    issued so far, oldest first. *)
Record world := {
  for_reading : unicode -> result node;
  for_writing : unicode -> result node;
  disk : gmap node (list byte);
  network : requests.Request -> result requests.Response;
  sent : list requests.Request
}.

(** A computation with effects: it reads and changes the world, and
    returns or raises. The world keeps the effects made before a
    raise. *)
Definition io (A : Type) : Type := world -> result A * world.

Definition io_ret {A} (a : A) : io A := fun w => (Ok a, w).

Definition io_bind {A B} (f : A -> io B) (m : io A) : io B :=
  fun w =>
    match m w with
    | (Ok a, w') => f a w'
    | (Raise e, w') => (Raise e, w')
    end.

#[global] Instance io_mret : MRet io := fun A a => io_ret a.
#[global] Instance io_mbind : MBind io := fun A B f m => io_bind f m.

(** A pure step inside an effectful computation. *)
Definition lift {A} (r : result A) : io A := fun w => (r, w).

Definition raise {A} (e : pyexn) : io A := lift (Raise e).

(** The file a path leads to. Two answers are the interpreter's own,
    on every system: a path with a NUL character is refused before
    the system sees it, and the empty path leads nowhere. For any
    other path the system answers. *)
Definition locate (answer : unicode -> result node) (path : unicode) : result node :=
  if existsb (N.eqb 0) path then Raise (ValueError (u "embedded null byte"))
  else
    match path with
    | [] => Raise (FileNotFoundError [])
    | _ :: _ => answer path
    end.

(** [open(file, "rb")]. A string names a path: the open raises what
    [locate] raises for it, and [FileNotFoundError] when the file it
    leads to does not exist. An integer names a descriptor, and the
    world has none open. *)
Definition open_rb (file : pyval) : io requests.file :=
  fun w =>
    match file with
    | VStr path =>
        match locate (for_reading w) path with
        | Ok n =>
            match disk w !! n with
            | Some bytes =>
                (Ok {| requests.file_name := path; requests.file_bytes := bytes |}, w)
            | None => (Raise (FileNotFoundError path), w)
            end
        | Raise e => (Raise e, w)
        end
    | VInt _ | VBool _ => (Raise (OSError (u "[Errno 9] Bad file descriptor")), w)
    | VNone | VFloat _ =>
        (Raise (TypeError (u "expected str, bytes or os.PathLike object, not "
                           ++ type_name file)), w)
    end.

(** [open(path, "wb")]: the open raises what [locate] raises for the
    path; otherwise the file is created, or emptied when it exists.
    The handle is the file. *)
Definition open_wb (path : unicode) : io node :=
  fun w =>
    match locate (for_writing w) path with
    | Ok n =>
        (Ok n, {| for_reading := for_reading w; for_writing := for_writing w;
                  disk := <[n := []]> (disk w);
                  network := network w; sent := sent w |})
    | Raise e => (Raise e, w)
    end.

(** [file.write(bytes)] on a handle from [open_wb], and the close at
    the end of the [with] block: the bytes are appended. *)
Definition write (handle : node) (bytes : list byte) : io unit :=
  fun w =>
    (Ok tt, {| for_reading := for_reading w; for_writing := for_writing w;
               disk := alter (fun old => old ++ bytes) handle (disk w);
               network := network w; sent := sent w |}).

(** Reading a whole file back: [open(path, "rb").read()]. *)
Definition read (path : unicode) : io (list byte) :=
  f ← open_rb (VStr path); mret (requests.file_bytes f).

(** [requests.post(url, data=, files=, auth=)]: the request goes out,
    then the library returns the response or raises. *)
Definition post (req : requests.Request) : io requests.Response :=
  fun w =>
    (network w req,
     {| for_reading := for_reading w; for_writing := for_writing w;
        disk := disk w; network := network w; sent := sent w ++ [req] |}).

End io.

(* ================================================================== *)
(** * pixian_ai/utils.py *)
(* ================================================================== *)

Module utils.

(** The [options] argument of [validate_param]: a tuple, a list, or
    any other object. *)
Inductive options :=
| Tuple (items : list pyval)
| List (items : list pyval)
| Other.

(** The decorator's pass over the bound arguments, in the order of
    the signature: the first argument that is not an instance of its
    annotation raises. [self] is not among the modelled arguments,
    and a parameter without annotation is skipped. *)
Fixpoint check_types (sig : list (unicode * annotation))
    (bound : list (unicode * pyval)) : result unit :=
  match bound with
  | [] => Ok tt
  | (name, value) :: rest =>
      match List.find (fun e => text_eqb (fst e) name) sig with
      | Some (_, expected_type) =>
          if negb (isinstance value expected_type) then
            Raise (TypeError (u "Argument " ++ name ++ u " must be of type "
                              ++ annotation_str expected_type))
          else check_types sig rest
      | None => check_types sig rest
      end
  end.

(** [enforce_types(method)]: the wrapper checks, then calls the
    method. [bind] is [sig.bind] followed by [apply_defaults]. *)
Definition enforce_types {Self Args A : Type}
    (sig : list (unicode * annotation)) (bind : Args -> list (unicode * pyval))
    (method : Self -> Args -> io.io A) : Self -> Args -> io.io A :=
  fun self args =>
    io.lift (check_types sig (bind args));;
    method self args.

Definition param_exists (names : list unicode) (params : list pyval) : result unit :=
  if negb (any params) then
    Raise (ValueError (u "Either " ++ join (u ", ") names ++ u " must be provided"))
  else Ok tt.

Section Format.

Variable float_repr : float -> unicode.

Definition validate_param (name : unicode) (param : pyval) (opts : options)
    : result unit :=
  match opts with
  | Tuple [start; end_] =>
      let invalid :=
        Raise (ValueError (u "Invalid value: " ++ name ++ u ". Valid range is: "
                           ++ str float_repr start ++ u " to "
                           ++ str float_repr end_)) in
      if truthy param then
        lower ← op_le start param;
        if lower : bool then
          upper ← op_le param end_;
          if upper : bool then Ok tt else invalid
        else invalid
      else Ok tt
  | List items =>
      if negb (contains items param) then
        Raise (ValueError (u "Invalid value: " ++ name ++ u ". Valid options are: "
                           ++ join (u ", ") (map (str float_repr) items)))
      else Ok tt
  | Tuple _ | Other =>
      Raise (ValueError (u "Invalid value and options provided for " ++ name))
  end.

End Format.

(** The subject of [match]/[fullmatch] must be a string. *)
Definition subject (v : pyval) : result unicode :=
  match v with
  | VStr s => Ok s
  | _ =>
      Raise (TypeError (u "expected string or bytes-like object, got '"
                        ++ type_name v ++ u "'"))
  end.

Definition digits : re.regex := re.Rep (re.Cls re.digit) 1 None.
Definition spaces : re.regex := re.Rep (re.Cls re.space) 1 None.
Definition optional (r : re.regex) : re.regex := re.Rep r 0 (Some 1).

(** [^#[0-9a-fA-F]{6}$] *)
Definition hex_pattern : re.regex :=
  re.Seq re.Caret
    (re.Seq (re.Chr (chr "#"))
       (re.Seq (re.Rep (re.Cls re.hexdigit) 6 (Some 6)) re.Dollar)).

Definition validate_hex (name : unicode) (color : pyval) : result unit :=
  s ← subject color;
  if negb (re.match_ hex_pattern s) then
    Raise (ValueError (u "Invalid value: " ++ name ++ u ". Hex color code provided: " ++ s))
  else Ok tt.

(** [\d+\.\d+%|\d+px] *)
Definition css_size : re.regex :=
  re.Alt (re.Seq digits (re.Seq (re.Chr (chr ".")) (re.Seq digits (re.Chr (chr "%")))))
         (re.Seq digits (re.Seq (re.Chr (chr "p")) (re.Chr (chr "x")))).

(** [(\d+\.\d+%|\d+px)(\s+(\d+\.\d+%|\d+px)){0,3}] *)
Definition css_pattern : re.regex :=
  re.Seq css_size (re.Rep (re.Seq spaces css_size) 0 (Some 3)).

Definition validate_css (name : unicode) (css : pyval) : result unit :=
  s ← subject css;
  if negb (re.fullmatch css_pattern s) then
    Raise (ValueError (u "Invalid value: " ++ name ++ u ". CSS size provided: " ++ s))
  else Ok tt.

(** [\d+(\.\d+)?] *)
Definition wh_number : re.regex :=
  re.Seq digits (optional (re.Seq (re.Chr (chr ".")) digits)).

(** [(\d+(\.\d+)?\s+\d+(\.\d+)?)] *)
Definition wh_pattern : re.regex :=
  re.Seq wh_number (re.Seq spaces wh_number).

Definition validate_wh (name : unicode) (wh : pyval) : result unit :=
  s ← subject wh;
  if negb (re.fullmatch wh_pattern s) then
    Raise (ValueError (u "Invalid value: " ++ name ++ u ". Width height provided: " ++ s))
  else Ok tt.

End utils.

(* ================================================================== *)
(** * pixian_ai/client.py *)
(* ================================================================== *)

Module client.

(** [PixianAIResponse] is a [bytes] carrying a [content] attribute.
    The constructor builds both from its one argument. *)
Record PixianAIResponse := {
  bytes_value : list byte;
  content : list byte
}.

Definition new_PixianAIResponse (content : list byte) : PixianAIResponse :=
  {| bytes_value := content; content := content |}.

(** [PixianAIResponse.save] *)
Definition save (self : PixianAIResponse) (fp : unicode) : io.io unit :=
  file ← io.open_wb fp;
  io.write file (content self).

Record PixianAI := {
  api_id : unicode;
  api_secret : unicode
}.

(** The bound arguments of one [remove_background] call. *)
Record arguments := {
  image_path : pyval;
  image_base64 : pyval;
  image_url : pyval;
  max_pixels : pyval;
  background_color : pyval;
  result_crop_to_foreground : pyval;
  result_margin : pyval;
  result_target_size : pyval;
  result_vertical_alignment : pyval;
  output_format : pyval;
  output_jpeg_quality : pyval
}.

(** The defaults of the signature. *)
Definition defaults : arguments := {|
  image_path := VStr [];
  image_base64 := VStr [];
  image_url := VStr [];
  max_pixels := VInt 25000000;
  background_color := VNone;
  result_crop_to_foreground := VBool false;
  result_margin := VStr (u "0px");
  result_target_size := VNone;
  result_vertical_alignment := VStr (u "middle");
  output_format := VStr (u "auto");
  output_jpeg_quality := VInt 75
|}.

(** The annotations of the signature. *)
Definition signature : list (unicode * annotation) := [
  (u "image_path", T_str);
  (u "image_base64", T_str);
  (u "image_url", T_str);
  (u "max_pixels", T_int);
  (u "background_color", T_Union_str_None);
  (u "result_crop_to_foreground", T_bool);
  (u "result_margin", T_str);
  (u "result_target_size", T_Union_str_None);
  (u "result_vertical_alignment", T_str);
  (u "output_format", T_str);
  (u "output_jpeg_quality", T_int)
].

Definition bind (a : arguments) : list (unicode * pyval) := [
  (u "image_path", image_path a);
  (u "image_base64", image_base64 a);
  (u "image_url", image_url a);
  (u "max_pixels", max_pixels a);
  (u "background_color", background_color a);
  (u "result_crop_to_foreground", result_crop_to_foreground a);
  (u "result_margin", result_margin a);
  (u "result_target_size", result_target_size a);
  (u "result_vertical_alignment", result_vertical_alignment a);
  (u "output_format", output_format a);
  (u "output_jpeg_quality", output_jpeg_quality a)
].

Definition endpoint : unicode := u "https://api.pixian.ai/api/v2/remove-background".

Section Format.

Variable float_repr : float -> unicode.

(** The body of [remove_background], below its decorator. *)
Definition remove_background_body (self : PixianAI) (a : arguments)
    : io.io PixianAIResponse :=
  io.lift (utils.param_exists
             [u "image_path"; u "image_base64"; u "image_url"]
             [image_path a; image_base64 a; image_url a]);;
  io.lift (utils.validate_param float_repr (u "max_pixels") (max_pixels a)
             (utils.Tuple [VInt 100; VInt 25000000]));;
  io.lift (if truthy (background_color a)
           then utils.validate_hex (u "background_color") (background_color a)
           else Ok tt);;
  io.lift (utils.validate_param float_repr (u "result_crop_to_foreground")
             (result_crop_to_foreground a)
             (utils.List [VBool true; VBool false]));;
  io.lift (utils.validate_css (u "result_margin") (result_margin a));;
  io.lift (if truthy (result_target_size a)
           then utils.validate_wh (u "result_target_size") (result_target_size a)
           else Ok tt);;
  io.lift (utils.validate_param float_repr (u "result_vertical_alignment")
             (result_vertical_alignment a)
             (utils.List [VStr (u "top"); VStr (u "middle"); VStr (u "bottom")]));;
  io.lift (utils.validate_param float_repr (u "output_format") (output_format a)
             (utils.List [VStr (u "auto"); VStr (u "png"); VStr (u "jpeg");
                          VStr (u "delta_png")]));;
  io.lift (utils.validate_param float_repr (u "output_jpeg_quality")
             (output_jpeg_quality a) (utils.Tuple [VInt 1; VInt 100]));;
  let url := endpoint in
  let files : gmap unicode requests.file := ∅ in
  let data : gmap unicode pyval :=
    <[u "max_pixels" := max_pixels a]>
    (<[u "background.color" := background_color a]>
    (<[u "result.crop_to_foreground" := result_crop_to_foreground a]>
    (<[u "result.margin" := result_margin a]>
    (<[u "result.target_size" := result_target_size a]>
    (<[u "result.vertical_alignment" := result_vertical_alignment a]>
    (<[u "output.format" := output_format a]>
    (<[u "output.jpeg_quality" := output_jpeg_quality a]> ∅))))))) in
  '(files, data) ←
    (if truthy (image_path a) then
       image ← io.open_rb (image_path a);
       mret (<[u "image" := image]> (∅ : gmap unicode requests.file), data)
     else if truthy (image_base64 a) then
       mret (files, <[u "image.base64" := image_base64 a]> data)
     else if truthy (image_url a) then
       mret (files, <[u "image.url" := image_url a]> data)
     else mret (files, data));
  response ← io.post {| requests.url := url;
                        requests.data := data;
                        requests.files := files;
                        requests.auth := (api_id self, api_secret self) |};
  if negb (requests.status_code response =? requests.codes_ok)%Z then
    io.raise (PixianAIException (requests.text response))
  else mret (new_PixianAIResponse (requests.content response)).

(** [remove_background], as decorated with [enforce_types]. *)
Definition remove_background : PixianAI -> arguments -> io.io PixianAIResponse :=
  utils.enforce_types signature bind remove_background_body.

End Format.

End client.

(* ================================================================== *)
(** * The specification's words *)
(* ================================================================== *)

Module spec.

(** A decimal digit, of any script: [0] to [9] and their like in the
    other decimal number systems of Unicode. *)
Definition digit (c : N) : bool := unidata.decimal c.

(** A whitespace character, of Unicode. *)
Definition space (c : N) : bool := unidata.space c.

(** Letter case is ignored by folding [A]-[Z] onto [a]-[z]. *)
Definition lower (c : N) : N :=
  if re.between 65 90 c then (c + 32)%N else c.

(** A hexadecimal digit, in either case. *)
Definition hex_digit (c : N) : bool :=
  existsb (N.eqb (lower c)) (u "0123456789abcdef").

Definition all (ok : N -> bool) (t : unicode) : Prop :=
  Forall (fun c => ok c = true) t.

(** ['#'] followed by exactly six hexadecimal digits. *)
Definition hex_color (s : unicode) : Prop :=
  exists h, length h = 6 /\ all hex_digit h /\ s = chr "#" :: h.

(** An integer: one or more digits. *)
Definition integer (t : unicode) : Prop := t <> [] /\ all digit t.

(** A decimal number: an integer part, a point, a fraction. *)
Definition decimal (t : unicode) : Prop :=
  exists a b, integer a /\ integer b /\ t = a ++ chr "." :: b.


(** A separator: one or more whitespace characters. *)
Definition whitespace (w : unicode) : Prop := w <> [] /\ all space w.



End spec.

(* ================================================================== *)
(** * Vocabulary for statements about one call *)
(* ================================================================== *)

Module call.

Import client.

(** The checks after [max_pixels], in the order of the source. *)
Definition options_valid (float_repr : float -> unicode) (a : arguments) : Prop :=
  (if truthy (background_color a)
   then utils.validate_hex (u "background_color") (background_color a)
   else Ok tt) = Ok tt /\
  utils.validate_param float_repr (u "result_crop_to_foreground")
    (result_crop_to_foreground a) (utils.List [VBool true; VBool false]) = Ok tt /\
  utils.validate_css (u "result_margin") (result_margin a) = Ok tt /\
  (if truthy (result_target_size a)
   then utils.validate_wh (u "result_target_size") (result_target_size a)
   else Ok tt) = Ok tt /\
  utils.validate_param float_repr (u "result_vertical_alignment")
    (result_vertical_alignment a)
    (utils.List [VStr (u "top"); VStr (u "middle"); VStr (u "bottom")]) = Ok tt /\
  utils.validate_param float_repr (u "output_format") (output_format a)
    (utils.List [VStr (u "auto"); VStr (u "png"); VStr (u "jpeg"); VStr (u "delta_png")]) = Ok tt /\
  utils.validate_param float_repr (u "output_jpeg_quality") (output_jpeg_quality a)
    (utils.Tuple [VInt 1; VInt 100]) = Ok tt.

(** Every argument has its declared type. *)
Definition well_typed (a : arguments) : Prop :=
  utils.check_types signature (bind a) = Ok tt.

(** At least one image source is given. *)
Definition source_given (a : arguments) : Prop :=
  any [image_path a; image_base64 a; image_url a] = true.

(** Type enforcement and every validator pass. *)
Definition validated (float_repr : float -> unicode) (a : arguments) : Prop :=
  well_typed a /\
  source_given a /\
  utils.validate_param float_repr (u "max_pixels") (max_pixels a)
    (utils.Tuple [VInt 100; VInt 25000000]) = Ok tt /\
  options_valid float_repr a.

(** The image file, when one is named, can be opened. *)
Definition readable (a : arguments) (w : io.world) : Prop :=
  truthy (image_path a) = true ->
  exists image, io.open_rb (image_path a) w = (Ok image, w).

(** The world once request [r] has gone out. *)
Definition issued (w : io.world) (r : requests.Request) : io.world :=
  {| io.for_reading := io.for_reading w; io.for_writing := io.for_writing w;
     io.disk := io.disk w; io.network := io.network w;
     io.sent := io.sent w ++ [r] |}.

(** What the call makes of the library's answer. *)
Definition answer (x : result requests.Response) : result PixianAIResponse :=
  match x with
  | Ok response =>
      if (requests.status_code response =? requests.codes_ok)%Z
      then Ok (new_PixianAIResponse (requests.content response))
      else Raise (PixianAIException (requests.text response))
  | Raise e => Raise e
  end.

(** The request a call with arguments [a] builds in world [w]. *)
Definition built (self : PixianAI) (a : arguments) (w : io.world)
    (r : requests.Request) : Prop :=
  requests.url r = endpoint /\
  requests.auth r = (api_id self, api_secret self) /\
  requests.data r !! (u "max_pixels") = Some (max_pixels a) /\
  requests.data r !! (u "background.color") = Some (background_color a) /\
  requests.data r !! (u "result.crop_to_foreground") = Some (result_crop_to_foreground a) /\
  requests.data r !! (u "result.margin") = Some (result_margin a) /\
  requests.data r !! (u "result.target_size") = Some (result_target_size a) /\
  requests.data r !! (u "result.vertical_alignment") = Some (result_vertical_alignment a) /\
  requests.data r !! (u "output.format") = Some (output_format a) /\
  requests.data r !! (u "output.jpeg_quality") = Some (output_jpeg_quality a) /\
  (truthy (image_path a) = true ->
   (exists image, io.open_rb (image_path a) w = (Ok image, w) /\
                  requests.files r = <[u "image" := image]> ∅) /\
   requests.data r !! (u "image.base64") = None /\
   requests.data r !! (u "image.url") = None) /\
  (truthy (image_path a) = false -> truthy (image_base64 a) = true ->
   requests.files r = ∅ /\
   requests.data r !! (u "image.base64") = Some (image_base64 a) /\
   requests.data r !! (u "image.url") = None) /\
  (truthy (image_path a) = false -> truthy (image_base64 a) = false ->
   truthy (image_url a) = true ->
   requests.files r = ∅ /\
   requests.data r !! (u "image.base64") = None /\
   requests.data r !! (u "image.url") = Some (image_url a)).

(** The arguments [a] with some of them replaced. *)
Definition with_sources (path base64 url : pyval) (a : arguments) : arguments :=
  {| image_path := path;
     image_base64 := base64;
     image_url := url;
     max_pixels := max_pixels a;
     background_color := background_color a;
     result_crop_to_foreground := result_crop_to_foreground a;
     result_margin := result_margin a;
     result_target_size := result_target_size a;
     result_vertical_alignment := result_vertical_alignment a;
     output_format := output_format a;
     output_jpeg_quality := output_jpeg_quality a |}.

Definition with_max_pixels (v : pyval) (a : arguments) : arguments :=
  {| image_path := image_path a;
     image_base64 := image_base64 a;
     image_url := image_url a;
     max_pixels := v;
     background_color := background_color a;
     result_crop_to_foreground := result_crop_to_foreground a;
     result_margin := result_margin a;
     result_target_size := result_target_size a;
     result_vertical_alignment := result_vertical_alignment a;
     output_format := output_format a;
     output_jpeg_quality := output_jpeg_quality a |}.

Definition with_output_jpeg_quality (v : pyval) (a : arguments) : arguments :=
  {| image_path := image_path a;
     image_base64 := image_base64 a;
     image_url := image_url a;
     max_pixels := max_pixels a;
     background_color := background_color a;
     result_crop_to_foreground := result_crop_to_foreground a;
     result_margin := result_margin a;
     result_target_size := result_target_size a;
     result_vertical_alignment := result_vertical_alignment a;
     output_format := output_format a;
     output_jpeg_quality := v |}.

End call.

(* ================================================================== *)
(** * Concrete calls *)
(* ================================================================== *)

Module example.

(** A rendering of floats for calls that format none. *)
Definition no_floats (f : float) : unicode := [].

Definition me : client.PixianAI :=
  {| client.api_id := u "some-api-id"; client.api_secret := u "some-api-secret" |}.

(** A response with the given status and body, the body in ASCII. *)
Definition reply (status : Z) (body : string) : requests.Response :=
  {| requests.status_code := status;
     requests.content := list_byte_of_string body;
     requests.text := u body |}.

(** A server that answers every request the same way. *)
Definition server (status : Z) (body : string)
    : requests.Request -> result requests.Response :=
  fun _ => Ok (reply status body).

(** Where the paths of the examples lead: [photo.jpg] to one file,
    [out.png] and [./out.png] to another, [absent.jpg] to a third and
    [drop.png] to a fourth; [photos] is a directory and [no/such/dir]
    does not exist; the user may open no other path. *)
Definition paths (path : unicode) : result io.node :=
  if text_eqb path (u "photo.jpg") then Ok 1%positive
  else if text_eqb path (u "out.png") || text_eqb path (u "./out.png") then Ok 2%positive
  else if text_eqb path (u "absent.jpg") then Ok 3%positive
  else if text_eqb path (u "drop.png") then Ok 4%positive
  else if text_eqb path (u "photos") then Raise (IsADirectoryError path)
  else if text_eqb path (u "no/such/dir/out.png") then Raise (FileNotFoundError path)
  else Raise (PermissionError path).

(** The same for reading, but that the user may write [drop.png] and
    not read it. *)
Definition readable_paths (path : unicode) : result io.node :=
  if text_eqb path (u "drop.png") then Raise (PermissionError path)
  else paths path.

(** A world where only the file of [photo.jpg] exists, and nothing
    has been sent yet. *)
Definition world (status : Z) (body : string) : io.world :=
  {| io.for_reading := readable_paths;
     io.for_writing := paths;
     io.disk := <[1%positive := list_byte_of_string "JFIF"]> ∅;
     io.network := server status body;
     io.sent := [] |}.

(** [remove_background(image_path="photo.jpg")] *)
Definition photo : client.arguments :=
  call.with_sources (VStr (u "photo.jpg")) (VStr []) (VStr []) client.defaults.

(** All three sources at once. *)
Definition three_sources : client.arguments :=
  call.with_sources (VStr (u "photo.jpg")) (VStr (u "QUJD"))
    (VStr (u "http://example.com/image.jpg")) client.defaults.

(** [remove_background(image_path=None)]: a falsy source of the
    wrong type. *)
Definition none_path : client.arguments :=
  call.with_sources VNone (VStr []) (VStr []) client.defaults.

(** [remove_background(max_pixels="many")]: no source, and an
    ill-typed option. *)
Definition text_pixels : client.arguments :=
  call.with_max_pixels (VStr (u "many")) client.defaults.

(** ["#AABBCC\n"] *)
Definition colour_and_newline : unicode := u "#AABBCC" ++ [re.newline].




(** ["\u0661\u0669\u0662\u0660 \u0661\u0660\u0668\u0660"]: 1920 and
    1080 in Arabic-Indic digits. *)
Definition arabic_size : unicode :=
  [1633; 1641; 1634; 1632; 32; 1633; 1632; 1640; 1632]%N.

(** ["1920\u20031080"]: 1920 and 1080 with an EM SPACE between
    them. *)
Definition em_space_size : unicode := u "1920" ++ 8195%N :: u "1080".

(** The same world with the network down: every request fails in the
    HTTP library. *)
Definition offline (w : io.world) : io.world :=
  {| io.for_reading := io.for_reading w;
     io.for_writing := io.for_writing w;
     io.disk := io.disk w;
     io.network := fun _ => Raise (RequestException (u "connection refused"));
     io.sent := io.sent w |}.

End example.

(* ================================================================== *)
(** * Further vocabulary: grammars, typing, the request on the wire *)
(* ================================================================== *)

Module grammar.

(** A number: digits, optionally followed by a point and digits. *)
Definition number (t : unicode) : Prop := spec.integer t \/ spec.decimal t.

(** Two numbers with whitespace between them and nothing around. *)
Definition width_height (s : unicode) : Prop :=
  exists a w b,
    number a /\ spec.whitespace w /\ number b /\ s = a ++ w ++ b.

End grammar.

Module typing.

(** [sig.parameters[name].annotation], when the signature has the
    parameter. *)
Definition declared (sig : list (unicode * annotation)) (name : unicode)
    : option annotation :=
  option_map snd (List.find (fun e => text_eqb (fst e) name) sig).

(** The integer an [int] argument stands for; [True] is 1 and [False]
    is 0. *)
Definition int_value (v : pyval) : option Z :=
  match v with
  | VInt n => Some n
  | VBool b => Some (Z.b2z b)
  | _ => None
  end.

End typing.

Module wire.

Import client.

(** The eight option fields, as the call puts them in [data]. *)
Definition payload (a : arguments) : gmap unicode pyval :=
  <[u "max_pixels" := max_pixels a]>
  (<[u "background.color" := background_color a]>
  (<[u "result.crop_to_foreground" := result_crop_to_foreground a]>
  (<[u "result.margin" := result_margin a]>
  (<[u "result.target_size" := result_target_size a]>
  (<[u "result.vertical_alignment" := result_vertical_alignment a]>
  (<[u "output.format" := output_format a]>
  (<[u "output.jpeg_quality" := output_jpeg_quality a]> ∅))))))).

Definition request (self : PixianAI) (files : gmap unicode requests.file)
    (data : gmap unicode pyval) : requests.Request :=
  {| requests.url := endpoint;
     requests.data := data;
     requests.files := files;
     requests.auth := (api_id self, api_secret self) |}.

(** Sending request [r] in world [w]: the outcome and the world after. *)
Definition send (w : io.world) (r : requests.Request)
    : result PixianAIResponse * io.world :=
  (call.answer (io.network w r), call.issued w r).

(** The names of the option fields. *)
Definition option_keys : gset unicode :=
  list_to_set [u "max_pixels"; u "background.color"; u "result.crop_to_foreground";
               u "result.margin"; u "result.target_size"; u "result.vertical_alignment";
               u "output.format"; u "output.jpeg_quality"].

(** The name of the image field the payload carries, if any. *)
Definition image_keys (a : arguments) : gset unicode :=
  if truthy (image_path a) then ∅
  else if truthy (image_base64 a) then {[u "image.base64"]}
  else if truthy (image_url a) then {[u "image.url"]}
  else ∅.

(** The names of the attachments. *)
Definition file_keys (a : arguments) : gset unicode :=
  if truthy (image_path a) then {[u "image"]} else ∅.

End wire.

(* ================================================================== *)
(** * Strings and character classes *)
(* ================================================================== *)

Lemma text_eqb_eq s : forall t, text_eqb s t = true <-> s = t.
Proof.
  induction s as [| a s IH]; intros [| b t]; simpl;
    try (split; [discriminate | discriminate]).
  - split; reflexivity.
  - rewrite andb_true_iff, N.eqb_eq, IH. split.
    + intros [-> ->]. reflexivity.
    + intros [= -> ->]. auto.
Qed.

Lemma text_eqb_refl s : text_eqb s s = true.
Proof. apply text_eqb_eq. reflexivity. Qed.

(** Two classes that agree on the first [n] code points, checked one
    by one. *)
Lemma agree_below (f g : N -> bool) (n : nat) :
  forallb (fun c => Bool.eqb (f c) (g c)) (map N.of_nat (seq 0 n)) = true ->
  forall c, (c < N.of_nat n)%N -> f c = g c.
Proof.
  intros H c Hc. rewrite forallb_forall in H. apply Bool.eqb_prop, H.
  apply in_map_iff. exists (N.to_nat c). split; [lia |]. apply in_seq. lia.
Qed.



(* ================================================================== *)
(** * The matcher computes what a pattern denotes *)
(* ================================================================== *)

Lemma span_nil p q : re.span p q [] -> p = q.
Proof.
  destruct p as [i s], q as [j t]. unfold re.span. simpl.
  intros [-> ->]. f_equal. lia.
Qed.

Lemma span_refl p : re.span p p [].
Proof. unfold re.span. simpl. split; [reflexivity | lia]. Qed.

Lemma span_trans p m q x y :
  re.span p m x -> re.span m q y -> re.span p q (x ++ y).
Proof.
  unfold re.span. intros [Hx Hi] [Hy Hj]. split.
  - rewrite Hx, Hy. apply app_assoc.
  - rewrite Hj, Hi, length_app. lia.
Qed.

Lemma step_spec ok p q :
  In q (re.step ok p) <->
  exists c, ok c = true /\ snd p = c :: snd q /\ fst q = S (fst p).
Proof.
  unfold re.step. destruct p as [i s]; simpl. destruct s as [|c t].
  - split; [intros [] | intros (c & _ & H & _); discriminate].
  - destruct (ok c) eqn:Hc; simpl.
    + split.
      * intros [<- | []]. exists c. auto.
      * intros (c' & _ & H & Hi). injection H as <- Ht.
        left. destruct q; simpl in *; subst; reflexivity.
    + split; [intros [] |].
      intros (c' & Hc' & H & _). injection H as <- _. congruence.
Qed.

Section Repetition.

Variable f : re.pos -> list re.pos.
Variable R : re.pos -> re.pos -> Prop.
Hypothesis f_R : forall p q, In q (f p) <-> R p q.
Hypothesis R_span : forall p q, R p q -> exists x, re.span p q x.

Lemma in_power n : forall p q, In q (re.power f n p) <-> re.iter R n p q.
Proof.
  induction n as [|n IH]; intros p q; simpl.
  - split; [intros [H | []]; exact H | intros H; left; exact H].
  - rewrite in_flat_map. split.
    + intros (m & Hm & Hq). exists m. split; [apply f_R | apply IH]; assumption.
    + intros (m & Hm & Hq). exists m. split; [apply f_R | apply IH]; assumption.
Qed.

Lemma in_upto n :
  forall p q, In q (re.upto f n p) <-> exists k, k <= n /\ re.iter R k p q.
Proof.
  induction n as [|n IH]; intros p q; simpl.
  - split.
    + intros [H | []]. exists 0. split; [lia | exact H].
    + intros (k & Hk & H). assert (k = 0) as -> by lia. left. exact H.
  - rewrite in_flat_map. split.
    + intros [H | (m & Hm & Hq)].
      * exists 0. split; [lia | exact H].
      * apply IH in Hq as (k & Hk & Hq). exists (S k). split; [lia |].
        exists m. split; [apply f_R |]; assumption.
    + intros ([|k] & Hk & H).
      * left. exact H.
      * destruct H as (m & Hm & Hq). right. exists m.
        split; [apply f_R; assumption |]. apply IH. exists k. split; [lia | exact Hq].
Qed.

Lemma iter_span n : forall p q, re.iter R n p q -> exists x, re.span p q x.
Proof.
  induction n as [|n IH]; intros p q; simpl.
  - intros <-. exists []. apply span_refl.
  - intros (m & Hm & Hq). apply R_span in Hm as (x & Hx).
    apply IH in Hq as (y & Hy). exists (x ++ y). eapply span_trans; eassumption.
Qed.

Lemma iter_add a : forall b p m q,
  re.iter R a p m -> re.iter R b m q -> re.iter R (a + b) p q.
Proof.
  induction a as [|a IH]; intros b p m q; simpl.
  - intros <-. auto.
  - intros (m' & Hm' & Ha) Hb. exists m'. split; [assumption |]. eapply IH; eassumption.
Qed.

Lemma iter_split a : forall b p q,
  re.iter R (a + b) p q -> exists m, re.iter R a p m /\ re.iter R b m q.
Proof.
  induction a as [|a IH]; intros b p q; simpl.
  - intros H. exists p. auto.
  - intros (m' & Hm' & H). apply IH in H as (m & Ha & Hb).
    exists m. split; [exists m'; auto | assumption].
Qed.

Lemma in_star_sound fuel :
  forall p q, In q (re.star f fuel p) -> exists k, re.iter R k p q.
Proof.
  induction fuel as [|fuel IH]; intros p q; simpl.
  - intros [H | []]. exists 0. exact H.
  - intros [H | H]; [exists 0; exact H |].
    apply in_flat_map in H as (m & Hm & Hq).
    apply filter_In in Hm as [Hm _]. apply IH in Hq as (k & Hq).
    exists (S k), m. split; [apply f_R |]; assumption.
Qed.

Lemma in_star_complete k :
  forall fuel p q,
    length (snd p) <= fuel -> re.iter R k p q -> In q (re.star f fuel p).
Proof.
  induction k as [|k IH]; intros fuel p q Hfuel; simpl.
  - intros <-. destruct fuel; left; reflexivity.
  - intros (m & Hm & Hq). destruct (R_span _ _ Hm) as ([|c x] & Hx).
    + apply span_nil in Hx as <-. apply IH; assumption.
    + destruct Hx as [Hs Hi]. rewrite Hs in Hfuel. simpl in Hfuel, Hi.
      rewrite length_app in Hfuel.
      destruct fuel as [|fuel]; [lia |]. simpl. right.
      apply in_flat_map. exists m. split.
      * apply filter_In. split; [apply f_R; assumption |].
        unfold re.advances. apply Nat.ltb_lt. lia.
      * apply IH; [lia | assumption].
Qed.

Lemma in_star p q :
  In q (re.star f (length (snd p)) p) <-> exists k, re.iter R k p q.
Proof.
  split; [apply in_star_sound |].
  intros (k & H). eapply in_star_complete; [reflexivity | eassumption].
Qed.

End Repetition.

Lemma matches_span r : forall p q, re.matches r p q -> exists x, re.span p q x.
Proof.
  induction r as [c | f | r1 IH1 r2 IH2 | r1 IH1 r2 IH2 | r IH lo hi | | ];
    intros p q; simpl.
  - intros [Hs Hi]. exists [c]. split; [exact Hs | simpl; lia].
  - intros (c & _ & Hs & Hi). exists [c]. split; [exact Hs | simpl; lia].
  - intros (m & H1 & H2). apply IH1 in H1 as (x & Hx). apply IH2 in H2 as (y & Hy).
    exists (x ++ y). eapply span_trans; eassumption.
  - intros [H | H]; [apply IH1 | apply IH2]; exact H.
  - intros (n & _ & _ & H). eapply iter_span; [exact IH | exact H].
  - intros [<- _]. exists []. apply span_refl.
  - intros [<- _]. exists []. apply span_refl.
Qed.

(** The matcher is sound and complete for the denotation. *)
Lemma run_matches r : forall p q, In q (re.run r p) <-> re.matches r p q.
Proof.
  induction r as [c | f | r1 IH1 r2 IH2 | r1 IH1 r2 IH2 | r IH lo hi | | ];
    intros p q; simpl.
  - rewrite step_spec. split.
    + intros (c' & Hc & Hs & Hi). apply N.eqb_eq in Hc as <-. auto.
    + intros [Hs Hi]. exists c. rewrite N.eqb_refl. auto.
  - apply step_spec.
  - rewrite in_flat_map. split; intros (m & H1 & H2); exists m;
      (split; [apply IH1 | apply IH2]); assumption.
  - rewrite in_app_iff, IH1, IH2. reflexivity.
  - destruct hi as [hi|].
    + destruct (Nat.leb_spec lo hi) as [Hle | Hgt].
      * rewrite in_flat_map. split.
        -- intros (m & Hm & Hq). apply (in_power _ _ IH) in Hm.
           apply (in_upto _ _ IH) in Hq as (k & Hk & Hq).
           exists (lo + k). split; [lia |]. split; [simpl; lia |].
           eapply iter_add; eassumption.
        -- intros (n & Hlo & Hhi & H). simpl in Hhi.
           replace n with (lo + (n - lo)) in H by lia.
           apply iter_split in H as (m & Ha & Hb). exists m.
           split; [apply (in_power _ _ IH); exact Ha |].
           apply (in_upto _ _ IH). exists (n - lo). split; [lia | exact Hb].
      * split; [intros [] |]. intros (n & Hlo & Hhi & _). simpl in Hhi. lia.
    + rewrite in_flat_map. split.
      * intros (m & Hm & Hq). apply (in_power _ _ IH) in Hm.
        apply (in_star _ _ IH (matches_span r)) in Hq as (k & Hq).
        exists (lo + k). split; [lia |]. split; [exact I |].
        eapply iter_add; eassumption.
      * intros (n & Hlo & _ & H).
        replace n with (lo + (n - lo)) in H by lia.
        apply iter_split in H as (m & Ha & Hb). exists m.
        split; [apply (in_power _ _ IH); exact Ha |].
        apply (in_star _ _ IH (matches_span r)). exists (n - lo). exact Hb.
  - destruct p as [i s]; simpl. destruct (Nat.eqb_spec i 0) as [-> | Hne]; simpl.
    + split; [intros [<- | []]; auto | intros [<- _]; left; reflexivity].
    + split; [intros [] | intros [_ H]; contradiction].
  - destruct p as [i s]; simpl. destruct s as [|c [|d t]]; simpl.
    + split; [intros [<- | []]; auto | intros [<- _]; left; reflexivity].
    + destruct (N.eqb_spec c re.newline) as [-> | Hne]; simpl.
      * split; [intros [<- | []]; auto | intros [<- _]; left; reflexivity].
      * split; [intros [] |]. intros [_ [H | H]]; [discriminate |].
        injection H as H. contradiction.
    + split; [intros [] |]. intros [_ [H | H]]; discriminate.
Qed.

(* ================================================================== *)
(** * Patterns without anchors and their words *)
(* ================================================================== *)

Lemma span_split p q x y :
  re.span p q (x ++ y) -> exists m, re.span p m x /\ re.span m q y.
Proof.
  unfold re.span. intros [Hs Hi].
  exists (fst p + length x, y ++ snd q). simpl. split; split.
  - rewrite Hs. symmetry. apply app_assoc.
  - reflexivity.
  - reflexivity.
  - rewrite Hi, length_app. lia.
Qed.

Lemma span_one p q c :
  re.span p q [c] <-> snd p = c :: snd q /\ fst q = S (fst p).
Proof.
  unfold re.span. simpl. split; intros [Hs Hi]; (split; [exact Hs | lia]).
Qed.

Section Words.

Variable R : re.pos -> re.pos -> Prop.
Variable L : unicode -> Prop.
Hypothesis R_L : forall p q, R p q <-> exists x, L x /\ re.span p q x.

Lemma iter_words n :
  forall p q, re.iter R n p q <-> exists z, re.words L n z /\ re.span p q z.
Proof.
  induction n as [|n IH]; intros p q; simpl.
  - split.
    + intros <-. exists []. split; [reflexivity | apply span_refl].
    + intros (z & -> & H). apply span_nil. exact H.
  - split.
    + intros (m & Hm & Hq). apply R_L in Hm as (x & Hx & Hpm).
      apply IH in Hq as (y & Hy & Hmq). exists (x ++ y). split.
      * exists x, y. auto.
      * eapply span_trans; eassumption.
    + intros (z & (x & y & Hx & Hy & ->) & H).
      apply span_split in H as (m & Hpm & Hmq). exists m. split.
      * apply R_L. exists x. auto.
      * apply IH. exists y. auto.
Qed.

End Words.


(** A pattern without anchors matches between two positions exactly
    when the text between them is one of its words. *)
Lemma matches_lang r :
  re.anchor_free r = true ->
  forall p q, re.matches r p q <-> exists x, re.lang r x /\ re.span p q x.
Proof.
  induction r as [c | f | r1 IH1 r2 IH2 | r1 IH1 r2 IH2 | r IH lo hi | | ];
    simpl; intros Hfree p q; try discriminate.
  - rewrite <- span_one. split.
    + intros H. exists [c]. auto.
    + intros (x & -> & H). exact H.
  - split.
    + intros (c & Hc & H). exists [c]. split; [exists c; auto | apply span_one; exact H].
    + intros (x & (c & Hc & ->) & H). exists c. split; [exact Hc | apply span_one; exact H].
  - apply andb_prop in Hfree as [F1 F2]. split.
    + intros (m & H1 & H2). apply (IH1 F1) in H1 as (x & Hx & Hpm).
      apply (IH2 F2) in H2 as (y & Hy & Hmq). exists (x ++ y). split.
      * exists x, y. auto.
      * eapply span_trans; eassumption.
    + intros (z & (x & y & Hx & Hy & ->) & H).
      apply span_split in H as (m & Hpm & Hmq). exists m. split.
      * apply (IH1 F1). exists x. auto.
      * apply (IH2 F2). exists y. auto.
  - apply andb_prop in Hfree as [F1 F2]. rewrite (IH1 F1), (IH2 F2). split.
    + intros [(x & Hx & H) | (x & Hx & H)]; exists x; auto.
    + intros (x & [Hx | Hx] & H); [left | right]; exists x; auto.
  - split.
    + intros (n & Hlo & Hhi & H). apply (iter_words _ _ (IH Hfree)) in H as (z & Hz & H).
      exists z. split; [exists n; auto | exact H].
    + intros (z & (n & Hlo & Hhi & Hz) & H). exists n. split; [exact Hlo |].
      split; [exact Hhi |]. apply (iter_words _ _ (IH Hfree)). exists z. auto.
Qed.

(** [fullmatch] of a pattern without anchors decides its words. *)
Lemma fullmatch_lang r s :
  re.anchor_free r = true ->
  re.fullmatch r s = true <-> re.lang r s.
Proof.
  intros Hfree. unfold re.fullmatch. rewrite existsb_exists. split.
  - intros (q & Hq & Hend). apply run_matches in Hq.
    apply (matches_lang r Hfree) in Hq as (x & Hx & [Hs _]). simpl in Hs.
    destruct (snd q); [| discriminate]. rewrite app_nil_r in Hs. subst. exact Hx.
  - intros H. exists (length s, []). split; [| reflexivity].
    apply run_matches. apply (matches_lang r Hfree). exists s. split; [exact H |].
    split; simpl; [symmetry; apply app_nil_r | reflexivity].
Qed.

(** [n] characters of one class. *)
Lemma words_cls ok n :
  forall z, re.words (re.lang (re.Cls ok)) n z <-> length z = n /\ spec.all ok z.
Proof.
  unfold spec.all. induction n as [|n IH]; intros z; simpl.
  - split.
    + intros ->. split; [reflexivity | constructor].
    + intros [H _]. destruct z; [reflexivity | discriminate].
  - split.
    + intros (x & y & (c & Hc & ->) & Hy & ->). apply IH in Hy as [Hlen Hall].
      simpl. split; [congruence | constructor; assumption].
    + intros [Hlen Hall]. destruct z as [|c y]; [discriminate |].
      inversion Hall; subst. exists [c], y. split; [exists c; auto |].
      split; [apply IH; split; [simpl in Hlen; lia | assumption] | reflexivity].
Qed.

(** [ok+]: one or more characters of the class. *)
Lemma lang_plus_cls ok z :
  re.lang (re.Rep (re.Cls ok) 1 None) z <-> z <> [] /\ spec.all ok z.
Proof.
  simpl. split.
  - intros (n & Hn & _ & H). apply words_cls in H as [Hlen Hall].
    split; [| exact Hall]. intros ->. simpl in Hlen. lia.
  - intros [Hne Hall]. exists (length z). split.
    + destruct z; [contradiction | simpl; lia].
    + split; [exact I |]. apply words_cls. auto.
Qed.

(* ================================================================== *)
(** * The validators' patterns and the specification's grammar *)
(* ================================================================== *)

(** The classes of the patterns are the specification's digits. *)
Lemma digit_eq c : re.digit c = spec.digit c.
Proof. reflexivity. Qed.

(** Below [g] the two classes agree by inspection; from [g] on,
    neither holds. *)
Lemma hexdigit_eq c : re.hexdigit c = spec.hex_digit c.
Proof.
  destruct (N.lt_ge_cases c 103) as [Hlt | Hge].
  - revert c Hlt. apply (agree_below re.hexdigit spec.hex_digit 103). reflexivity.
  - transitivity false; [| symmetry].
    + unfold re.hexdigit, re.between.
      repeat match goal with
             | |- context [(?a <=? ?b)%N] => destruct (N.leb_spec a b)
             end; try reflexivity; lia.
    + unfold spec.hex_digit, spec.lower, re.between.
      destruct (N.leb_spec c 90) as [Hle | _]; [lia |].
      rewrite andb_false_r. apply not_true_is_false. intros H.
      apply existsb_exists in H as (d & Hd & He). apply N.eqb_eq in He. subst d.
      assert (Hall : forallb (fun d => d <? 103)%N (u "0123456789abcdef") = true)
        by reflexivity.
      rewrite forallb_forall in Hall. apply Hall, N.ltb_lt in Hd. lia.
Qed.

Lemma all_ext (f g : N -> bool) :
  (forall c, f c = g c) -> forall t, spec.all f t <-> spec.all g t.
Proof.
  intros H t. unfold spec.all. rewrite !List.Forall_forall.
  split; intros Ht c Hc; [rewrite <- H | rewrite H]; auto.
Qed.

Lemma lang_digits x : re.lang utils.digits x <-> spec.integer x.
Proof.
  unfold utils.digits, spec.integer. rewrite lang_plus_cls.
  rewrite (all_ext _ _ digit_eq). reflexivity.
Qed.

Lemma lang_spaces w : re.lang utils.spaces w <-> spec.whitespace w.
Proof. apply lang_plus_cls. Qed.






(** [match] succeeds when the matcher reaches some end position. *)
Lemma match_matches r s :
  re.match_ r s = true <-> exists q, re.matches r (0, s) q.
Proof.
  unfold re.match_. destruct (re.run r (0, s)) as [|q l] eqn:Hrun.
  - split; [discriminate |]. intros (q & Hq). apply run_matches in Hq.
    rewrite Hrun in Hq. destruct Hq.
  - split; [| reflexivity]. intros _. exists q. apply run_matches.
    rewrite Hrun. left. reflexivity.
Qed.

(** What [^#[0-9a-fA-F]{6}$] matches from the start of a string: the
    six-digit colours, and the same followed by one newline. *)
Lemma match_hex_pattern s :
  re.match_ utils.hex_pattern s = true <->
  exists h, length h = 6 /\ spec.all spec.hex_digit h /\
            (s = chr "#" :: h \/ s = chr "#" :: h ++ [re.newline]).
Proof.
  rewrite match_matches. unfold utils.hex_pattern. cbn [re.matches re.within]. split.
  - intros (q & m1 & [<- _] & m2 & [Hs2 _] & m3 & (n & Hlo & Hhi & Hit) & <- & Hend).
    simpl in Hs2.
    apply (iter_words _ _ (matches_lang (re.Cls re.hexdigit) eq_refl)) in Hit
      as (h & Hh & [Hs3 _]).
    apply words_cls in Hh as [Hlen Hall].
    exists h. split; [lia |]. split; [apply (all_ext _ _ hexdigit_eq); exact Hall |].
    rewrite Hs2, Hs3. destruct Hend as [-> | ->].
    + left. rewrite app_nil_r. reflexivity.
    + right. reflexivity.
  - intros (h & Hlen & Hall & Hs).
    apply (all_ext _ _ hexdigit_eq) in Hall.
    assert (exists tail, s = chr "#" :: h ++ tail /\
                         (tail = [] \/ tail = [re.newline])) as (tail & -> & Hend).
    { destruct Hs as [-> | ->].
      - exists []. rewrite app_nil_r. auto.
      - exists [re.newline]. auto. }
    exists (7, tail), (0, chr "#" :: h ++ tail). split; [auto |].
    exists (1, h ++ tail). split; [simpl; auto |].
    exists (7, tail). split; [| auto].
    exists 6. split; [lia |]. split; [lia |].
    apply (iter_words _ _ (matches_lang (re.Cls re.hexdigit) eq_refl)).
    exists h. split; [apply words_cls; auto |].
    split; simpl; [reflexivity | lia].
Qed.

(* ================================================================== *)
(** * One call of remove_background, step by step *)
(* ================================================================== *)

Lemma bind_lift {A B} (r : result A) (k : A -> io.io B) (w : io.world) :
  (io.lift r ≫= k) w = match r with Ok x => k x w | Raise e => (Raise e, w) end.
Proof. destruct r; reflexivity. Qed.

(** Opening a file for reading leaves the world as it is. *)
Lemma open_rb_world v w : snd (io.open_rb v w) = w.
Proof.
  unfold io.open_rb. destruct v as [| | | | path]; try reflexivity.
  destruct (io.locate (io.for_reading w) path) as [n | e]; [| reflexivity].
  destruct (io.disk w !! n); reflexivity.
Qed.

(** The last two statements: post, then return or raise. *)
Lemma post_answer (r : requests.Request) (w : io.world) :
  (response ← io.post r;
   if negb (requests.status_code response =? requests.codes_ok)%Z
   then io.raise (PixianAIException (requests.text response))
   else mret (client.new_PixianAIResponse (requests.content response))) w
  = (call.answer (io.network w r), call.issued w r).
Proof.
  unfold mbind, io.io_mbind, io.io_bind, io.post, call.answer, call.issued.
  destruct (io.network w r) as [response | e]; [| reflexivity].
  destruct (requests.status_code response =? requests.codes_ok)%Z; reflexivity.
Qed.

Lemma param_exists_given names params :
  utils.param_exists names params = Ok tt <-> any params = true.
Proof.
  unfold utils.param_exists. destruct (any params); simpl.
  - split; reflexivity.
  - split; discriminate.
Qed.

Lemma bind_ret {A B} (x : A) (k : A -> io.io B) (w : io.world) :
  (mret x ≫= k) w = k x w.
Proof. reflexivity. Qed.

Lemma bind_assoc {A B C} (m : io.io A) (k1 : A -> io.io B) (k2 : B -> io.io C) w :
  ((m ≫= k1) ≫= k2) w =
  match m w with
  | (Ok x, w') => (k1 x ≫= k2) w'
  | (Raise e, w') => (Raise e, w')
  end.
Proof.
  unfold mbind, io.io_mbind, io.io_bind. destruct (m w) as [[x | e] w']; reflexivity.
Qed.

Ltac check_step Hres H :=
  rewrite bind_lift in Hres;
  match type of Hres with
  | _ = match ?r with Ok _ => _ | Raise _ => _ end =>
      destruct r as [[] | ?e] eqn:H
  end.

Lemma remove_background_cases fr self a w :
  (exists e, client.remove_background fr self a w = (Raise e, w) /\
             ~ (call.validated fr a /\ call.readable a w))
  \/
  (call.validated fr a /\ call.readable a w /\
   exists r, client.remove_background fr self a w
             = (call.answer (io.network w r), call.issued w r) /\
             call.built self a w r).
Proof.
  remember (client.remove_background fr self a w) as res eqn:Hres.
  unfold client.remove_background, utils.enforce_types,
    client.remove_background_body in Hres.
  check_step Hres H0.
  2:{ left. exists e. split; [exact Hres |]. intros [(V & _) _].
      unfold call.well_typed in V. congruence. }
  check_step Hres H1.
  2:{ left. exists e. split; [exact Hres |]. intros [(_ & V & _) _].
      unfold call.source_given in V. unfold utils.param_exists in H1.
      rewrite V in H1. discriminate. }
  check_step Hres H2.
  2:{ left. exists e. split; [exact Hres |]. intros [(_ & _ & V & _) _]. congruence. }
  check_step Hres H3.
  2:{ left. exists e. split; [exact Hres |]. intros [(_ & _ & _ & V) _].
      destruct V as (V & _). congruence. }
  check_step Hres H4.
  2:{ left. exists e. split; [exact Hres |]. intros [(_ & _ & _ & V) _].
      destruct V as (_ & V & _). congruence. }
  check_step Hres H5.
  2:{ left. exists e. split; [exact Hres |]. intros [(_ & _ & _ & V) _].
      destruct V as (_ & _ & V & _). congruence. }
  check_step Hres H6.
  2:{ left. exists e. split; [exact Hres |]. intros [(_ & _ & _ & V) _].
      destruct V as (_ & _ & _ & V & _). congruence. }
  check_step Hres H7.
  2:{ left. exists e. split; [exact Hres |]. intros [(_ & _ & _ & V) _].
      destruct V as (_ & _ & _ & _ & V & _). congruence. }
  check_step Hres H8.
  2:{ left. exists e. split; [exact Hres |]. intros [(_ & _ & _ & V) _].
      destruct V as (_ & _ & _ & _ & _ & V & _). congruence. }
  check_step Hres H9.
  2:{ left. exists e. split; [exact Hres |]. intros [(_ & _ & _ & V) _].
      destruct V as (_ & _ & _ & _ & _ & _ & V). congruence. }
  assert (V : call.validated fr a).
  { split; [exact H0 |]. split; [exact (proj1 (param_exists_given _ _) H1) |].
    split; [exact H2 |]. repeat split; assumption. }
  cbv zeta in Hres.
  destruct (truthy (client.image_path a)) eqn:Hpath.
  - pose proof (open_rb_world (client.image_path a) w) as Hw.
    rewrite bind_assoc in Hres.
    destruct (io.open_rb (client.image_path a) w) as [[image | e] w'] eqn:Hopen;
      simpl in Hw; subst w'.
    + rewrite bind_ret in Hres. cbv beta iota in Hres. rewrite post_answer in Hres.
      right. split; [exact V |]. split; [intros _; exists image; exact Hopen |].
      eexists. split; [exact Hres |].
      unfold call.built. simpl.
      do 10 (split; [reflexivity |]).
      split; [| split; intros; congruence].
      intros _. split; [exists image; split; [exact Hopen | reflexivity] |].
      split; reflexivity.
    + left. exists e. split; [rewrite Hres; reflexivity |].
      intros [_ R]. destruct (R Hpath) as (image & Himage). congruence.
  - assert (R : call.readable a w) by (intros Htrue; congruence).
    destruct (truthy (client.image_base64 a)) eqn:Hbase64;
      [| destruct (truthy (client.image_url a)) eqn:Hurl];
      rewrite bind_ret in Hres; cbv beta iota in Hres; rewrite post_answer in Hres;
      (right; split; [exact V |]; split; [exact R |];
       eexists; split; [exact Hres |];
       unfold call.built; simpl;
       do 10 (split; [reflexivity |]);
       split; [intros; congruence |];
       split; intros; try congruence; repeat split; reflexivity).
Qed.

Lemma app_one_neq {A} (l : list A) (x : A) : l <> l ++ [x].
Proof.
  intros H. apply (f_equal (@length A)) in H. rewrite length_app in H. simpl in H. lia.
Qed.

(** A request goes out exactly when type enforcement and validation
    pass and the image, if one is named, can be read; the outcome is
    then what the call makes of the library's answer. *)
Lemma issued_call fr self a w r :
  io.sent (snd (client.remove_background fr self a w)) = io.sent w ++ [r] ->
  call.validated fr a /\ call.readable a w /\
  client.remove_background fr self a w
  = (call.answer (io.network w r), call.issued w r) /\
  call.built self a w r.
Proof.
  intros Hsent.
  destruct (remove_background_cases fr self a w)
    as [(e & He & _) | (V & R & r' & Hr' & B)].
  - rewrite He in Hsent. simpl in Hsent. apply app_one_neq in Hsent. destruct Hsent.
  - rewrite Hr' in Hsent. simpl in Hsent. apply app_inv_head in Hsent.
    injection Hsent as <-. auto.
Qed.

Lemma valid_call fr self a w :
  call.validated fr a -> call.readable a w ->
  exists r,
    client.remove_background fr self a w
    = (call.answer (io.network w r), call.issued w r) /\
    call.built self a w r.
Proof.
  intros V R.
  destruct (remove_background_cases fr self a w)
    as [(e & _ & Hnot) | (_ & _ & H)]; [| exact H].
  destruct Hnot. auto.
Qed.

(* ================================================================== *)
(** * The properties of the specification *)
(* ================================================================== *)

(** The type of a source is checked before its presence: a source
    that is [None] is falsy, and the call raises [TypeError], as it
    does when the three sources are empty strings and another argument
    is ill-typed. *)
Lemma no_source_ill_typed_raises_type_error :
  (truthy (client.image_path example.none_path) = false /\
   truthy (client.image_base64 example.none_path) = false /\
   truthy (client.image_url example.none_path) = false /\
   client.remove_background example.no_floats example.me example.none_path
     (example.world 200 "ok")
   = (Raise (TypeError (u "Argument image_path must be of type <class 'str'>")),
      example.world 200 "ok")) /\
  (truthy (client.image_path example.text_pixels) = false /\
   truthy (client.image_base64 example.text_pixels) = false /\
   truthy (client.image_url example.text_pixels) = false /\
   client.remove_background example.no_floats example.me example.text_pixels
     (example.world 200 "ok")
   = (Raise (TypeError (u "Argument max_pixels must be of type <class 'int'>")),
      example.world 200 "ok")).
Proof. repeat split; reflexivity. Qed.

(** C1 (amended). For every call whose arguments all have their
    declared types and whose three image sources are empty, the call
    raises the [ValueError] that names [image_path], [image_base64] and
    [image_url], and the world is left as it was: no request has gone
    out. *)
Theorem no_source_raises_value_error fr self a w :
  call.well_typed a ->
  truthy (client.image_path a) = false ->
  truthy (client.image_base64 a) = false ->
  truthy (client.image_url a) = false ->
  client.remove_background fr self a w
  = (Raise (ValueError (u "Either image_path, image_base64, image_url must be provided")), w)
  /\ io.sent (snd (client.remove_background fr self a w)) = io.sent w.
Proof.
  intros T Hp Hb Hu.
  assert (client.remove_background fr self a w
          = (Raise (ValueError
                      (u "Either image_path, image_base64, image_url must be provided")), w))
    as ->; [| split; reflexivity].
  unfold client.remove_background, utils.enforce_types, client.remove_background_body.
  rewrite bind_lift. unfold call.well_typed in T. rewrite T.
  rewrite bind_lift. unfold utils.param_exists, any. simpl.
  rewrite Hp, Hb, Hu. reflexivity.
Qed.

Lemma no_source_raises_value_error_witness :
  client.remove_background example.no_floats example.me client.defaults
    (example.world 200 "ok")
  = (Raise (ValueError (u "Either image_path, image_base64, image_url must be provided")),
     example.world 200 "ok")
  /\ io.sent (snd (client.remove_background example.no_floats example.me
                     client.defaults (example.world 200 "ok")))
     = io.sent (example.world 200 "ok").
Proof.
  apply (no_source_raises_value_error example.no_floats example.me client.defaults
           (example.world 200 "ok")); reflexivity.
Defined.

(** C2. When type enforcement and validation pass and the image file,
    if one is named, can be read, the call sends one request, whatever
    the number of sources given, and its outcome is the answer to that
    request. A non-empty [image_path] wins: the file is attached and
    the payload has neither [image.base64] nor [image.url]. Otherwise a
    non-empty [image_base64] is sent as [image.base64], alone.
    Otherwise a non-empty [image_url] is sent as [image.url]. *)
Theorem source_precedence fr self a w :
  call.validated fr a ->
  call.readable a w ->
  exists r,
    client.remove_background fr self a w
    = (call.answer (io.network w r), call.issued w r) /\
    (truthy (client.image_path a) = true ->
     (exists image, io.open_rb (client.image_path a) w = (Ok image, w) /\
                    requests.files r = <[u "image" := image]> ∅) /\
     requests.data r !! (u "image.base64") = None /\
     requests.data r !! (u "image.url") = None) /\
    (truthy (client.image_path a) = false ->
     truthy (client.image_base64 a) = true ->
     requests.files r = ∅ /\
     requests.data r !! (u "image.base64") = Some (client.image_base64 a) /\
     requests.data r !! (u "image.url") = None) /\
    (truthy (client.image_path a) = false ->
     truthy (client.image_base64 a) = false ->
     truthy (client.image_url a) = true ->
     requests.files r = ∅ /\
     requests.data r !! (u "image.base64") = None /\
     requests.data r !! (u "image.url") = Some (client.image_url a)).
Proof.
  intros V R. destruct (valid_call fr self a w V R) as (r & Hr & B).
  exists r. split; [exact Hr |].
  unfold call.built in B. tauto.
Qed.

Lemma source_precedence_witness :
  exists r,
    client.remove_background example.no_floats example.me example.three_sources
      (example.world 200 "ok")
    = (call.answer (io.network (example.world 200 "ok") r),
       call.issued (example.world 200 "ok") r) /\
    (truthy (client.image_path example.three_sources) = true ->
     (exists image,
        io.open_rb (client.image_path example.three_sources) (example.world 200 "ok")
        = (Ok image, example.world 200 "ok") /\
        requests.files r = <[u "image" := image]> ∅) /\
     requests.data r !! (u "image.base64") = None /\
     requests.data r !! (u "image.url") = None) /\
    (truthy (client.image_path example.three_sources) = false ->
     truthy (client.image_base64 example.three_sources) = true ->
     requests.files r = ∅ /\
     requests.data r !! (u "image.base64") = Some (client.image_base64 example.three_sources) /\
     requests.data r !! (u "image.url") = None) /\
    (truthy (client.image_path example.three_sources) = false ->
     truthy (client.image_base64 example.three_sources) = false ->
     truthy (client.image_url example.three_sources) = true ->
     requests.files r = ∅ /\
     requests.data r !! (u "image.base64") = None /\
     requests.data r !! (u "image.url") = Some (client.image_url example.three_sources)).
Proof.
  apply (source_precedence example.no_floats example.me example.three_sources
           (example.world 200 "ok")).
  - repeat split; reflexivity.
  - intros _. eexists. reflexivity.
Defined.

(** C3. With the arguments well typed and a source given, [max_pixels]
    of 99 or 25000001 raises the range error before any request; with
    the other options valid and the image readable, [max_pixels] of 100
    or 25000000 passes and the request carries it. *)
Theorem max_pixels_bounds fr self a w :
  call.well_typed a ->
  call.source_given a ->
  (client.max_pixels a = VInt 99 \/ client.max_pixels a = VInt 25000001 ->
   client.remove_background fr self a w
   = (Raise (ValueError (u "Invalid value: max_pixels. Valid range is: 100 to 25000000")), w))
  /\
  (client.max_pixels a = VInt 100 \/ client.max_pixels a = VInt 25000000 ->
   call.options_valid fr a ->
   call.readable a w ->
   exists r,
     client.remove_background fr self a w
     = (call.answer (io.network w r), call.issued w r) /\
     requests.data r !! (u "max_pixels") = Some (client.max_pixels a)).
Proof.
  intros T S. split.
  - intros Hmp.
    unfold client.remove_background, utils.enforce_types, client.remove_background_body.
    rewrite bind_lift. unfold call.well_typed in T. rewrite T.
    rewrite bind_lift. rewrite (proj2 (param_exists_given _ _) S).
    rewrite bind_lift. destruct Hmp as [-> | ->]; reflexivity.
  - intros Hmp O R.
    assert (V : call.validated fr a).
    { split; [exact T |]. split; [exact S |]. split; [| exact O].
      destruct Hmp as [-> | ->]; reflexivity. }
    destruct (valid_call fr self a w V R) as (r & Hr & B).
    exists r. split; [exact Hr |]. apply B.
Qed.

Lemma max_pixels_bounds_witness :
  (client.remove_background example.no_floats example.me
     (call.with_max_pixels (VInt 99) example.photo) (example.world 200 "ok")
   = (Raise (ValueError (u "Invalid value: max_pixels. Valid range is: 100 to 25000000")),
      example.world 200 "ok"))
  /\
  (exists r,
     client.remove_background example.no_floats example.me
       (call.with_max_pixels (VInt 100) example.photo) (example.world 200 "ok")
     = (call.answer (io.network (example.world 200 "ok") r),
        call.issued (example.world 200 "ok") r) /\
     requests.data r !! (u "max_pixels") = Some (VInt 100)).
Proof.
  split.
  - apply (max_pixels_bounds example.no_floats example.me
             (call.with_max_pixels (VInt 99) example.photo) (example.world 200 "ok"));
      [reflexivity | reflexivity | left; reflexivity].
  - apply (max_pixels_bounds example.no_floats example.me
             (call.with_max_pixels (VInt 100) example.photo) (example.world 200 "ok"));
      [reflexivity | reflexivity | left; reflexivity | repeat split; reflexivity |].
    intros _. eexists. reflexivity.
Defined.

(** C4. A falsy value passes every two-element range, whatever the
    bounds: the comparison is not made. So a call that is valid with
    the default JPEG quality is valid with quality 0 as well, and sends
    it, although 1 <= 0 is false. *)
Theorem falsy_bypasses_range fr :
  (forall name param start end_,
     truthy param = false ->
     utils.validate_param fr name param (utils.Tuple [start; end_]) = Ok tt)
  /\
  op_le (VInt 1) (VInt 0) = Ok false
  /\
  (forall self a w,
     call.validated fr (call.with_output_jpeg_quality (VInt 75) a) ->
     call.readable a w ->
     exists r,
       client.remove_background fr self (call.with_output_jpeg_quality (VInt 0) a) w
       = (call.answer (io.network w r), call.issued w r) /\
       requests.data r !! (u "output.jpeg_quality") = Some (VInt 0)).
Proof.
  split; [| split; [reflexivity |]].
  - intros name param start end_ F. unfold utils.validate_param. rewrite F. reflexivity.
  - intros self a w (T & S & M & O) R.
    assert (V : call.validated fr (call.with_output_jpeg_quality (VInt 0) a)).
    { split.
      - unfold call.well_typed in *. simpl in *. exact T.
      - split; [exact S |]. split; [exact M |].
        destruct O as (O1 & O2 & O3 & O4 & O5 & O6 & _).
        repeat split; assumption || reflexivity. }
    destruct (valid_call fr self _ w V R) as (r & Hr & B).
    exists r. split; [exact Hr |]. apply B.
Qed.

Lemma falsy_bypasses_range_witness :
  utils.validate_param example.no_floats (u "output_jpeg_quality") (VInt 0)
    (utils.Tuple [VInt 1; VInt 100]) = Ok tt
  /\
  (exists r,
     client.remove_background example.no_floats example.me
       (call.with_output_jpeg_quality (VInt 0) example.photo) (example.world 200 "ok")
     = (call.answer (io.network (example.world 200 "ok") r),
        call.issued (example.world 200 "ok") r) /\
     requests.data r !! (u "output.jpeg_quality") = Some (VInt 0)).
Proof.
  split.
  - apply (proj1 (falsy_bypasses_range example.no_floats)). reflexivity.
  - apply (proj2 (proj2 (falsy_bypasses_range example.no_floats))
             example.me example.photo (example.world 200 "ok")).
    + repeat split; reflexivity.
    + intros _. eexists. reflexivity.
Defined.

(** X1. What [validate_hex] accepts: the colours of the specification, and
    each of them followed by one newline. It raises [ValueError] on
    every other string. *)
Lemma validate_hex_accepts name s :
  utils.validate_hex name (VStr s) = Ok tt <->
  spec.hex_color s \/
  exists colour,
    spec.hex_color colour /\ s = colour ++ [re.newline].
Proof.
  unfold utils.validate_hex. simpl.
  destruct (re.match_ utils.hex_pattern s) eqn:M; simpl.
  - split; [intros _ | reflexivity].
    apply match_hex_pattern in M as (h & Hlen & Hall & [Hs | Hs]).
    + left. exists h. auto.
    + right. exists (chr "#" :: h). split; [exists h; auto | exact Hs].
  - split; [discriminate |]. intros H.
    assert (re.match_ utils.hex_pattern s = true) as M'.
    { apply match_hex_pattern.
      destruct H as [(h & Hlen & Hall & Hs) | (colour & (h & Hlen & Hall & ->) & Hs)];
        exists h; auto. }
    congruence.
Qed.

Lemma validate_hex_examples name :
  utils.validate_hex name (VStr (u "ZZZZZZ"))
  = Raise (ValueError (u "Invalid value: " ++ name ++ u ". Hex color code provided: ZZZZZZ")) /\
  utils.validate_hex name (VStr (u "#12345"))
  = Raise (ValueError (u "Invalid value: " ++ name ++ u ". Hex color code provided: #12345")) /\
  utils.validate_hex name (VStr (u "#AABBCC")) = Ok tt.
Proof. repeat split; reflexivity. Qed.

(** C5 (the code departs from it). ["#AABBCC\n"] is not ['#'] followed
    by exactly six hexadecimal digits, and [validate_hex] accepts it:
    [$] also matches just before a newline that ends the string. *)
Theorem validate_hex_accepts_trailing_newline name :
  utils.validate_hex name (VStr example.colour_and_newline) = Ok tt /\
  ~ spec.hex_color example.colour_and_newline.
Proof.
  split; [reflexivity |].
  intros (h & Hlen & _ & Hs). simpl in Hs. injection Hs as <-. discriminate.
Qed.


(** C7. When the request has gone out (which is to say validation has
    passed) and the response's status is not 200, the call raises
    [PixianAIException] with the response's text as its message. *)
Theorem non_success_raises_response_text fr self a w r response :
  io.sent (snd (client.remove_background fr self a w)) = io.sent w ++ [r] ->
  io.network w r = Ok response ->
  requests.status_code response <> requests.codes_ok ->
  fst (client.remove_background fr self a w)
  = Raise (PixianAIException (requests.text response)).
Proof.
  intros Hsent Hnet Hstatus.
  destruct (issued_call fr self a w r Hsent) as (_ & _ & -> & _).
  simpl. rewrite Hnet. simpl.
  destruct (Z.eqb_spec (requests.status_code response) requests.codes_ok);
    [contradiction | reflexivity].
Qed.

Lemma non_success_raises_response_text_witness :
  fst (client.remove_background example.no_floats example.me example.photo
         (example.world 400 "bad request"))
  = Raise (PixianAIException (u "bad request")).
Proof.
  eapply (non_success_raises_response_text example.no_floats example.me example.photo
            (example.world 400 "bad request") _ (example.reply 400 "bad request")).
  - reflexivity.
  - reflexivity.
  - discriminate.
Defined.

(** C8. For [remove_background(image_path="photo.jpg")], every other
    parameter at its default: when the request has gone out and the
    transport returns status 200 with body [b"ok-bytes"], the result's
    bytes are [b"ok-bytes"], and the transmitted payload has
    [max_pixels] 25000000 and [result.margin] "0px". *)
Theorem photo_call_end_to_end fr self w r response :
  io.sent (snd (client.remove_background fr self example.photo w)) = io.sent w ++ [r] ->
  io.network w r = Ok response ->
  requests.status_code response = 200%Z ->
  requests.content response = list_byte_of_string "ok-bytes" ->
  exists result,
    fst (client.remove_background fr self example.photo w) = Ok result /\
    client.content result = list_byte_of_string "ok-bytes" /\
    client.bytes_value result = list_byte_of_string "ok-bytes" /\
    requests.data r !! (u "max_pixels") = Some (VInt 25000000) /\
    requests.data r !! (u "result.margin") = Some (VStr (u "0px")).
Proof.
  intros Hsent Hnet Hstatus Hcontent.
  destruct (issued_call fr self example.photo w r Hsent) as (_ & _ & -> & B).
  exists (client.new_PixianAIResponse (requests.content response)).
  simpl. rewrite Hnet. simpl. rewrite Hstatus. simpl.
  split; [reflexivity |]. split; [exact Hcontent |]. split; [exact Hcontent |].
  split; apply B.
Qed.

Lemma photo_call_end_to_end_witness :
  exists r result,
    io.sent (snd (client.remove_background example.no_floats example.me example.photo
                    (example.world 200 "ok-bytes"))) = [r] /\
    fst (client.remove_background example.no_floats example.me example.photo
           (example.world 200 "ok-bytes")) = Ok result /\
    client.content result = list_byte_of_string "ok-bytes" /\
    client.bytes_value result = list_byte_of_string "ok-bytes" /\
    requests.data r !! (u "max_pixels") = Some (VInt 25000000) /\
    requests.data r !! (u "result.margin") = Some (VStr (u "0px")).
Proof.
  destruct (photo_call_end_to_end example.no_floats example.me
              (example.world 200 "ok-bytes") _ (example.reply 200 "ok-bytes")
              eq_refl eq_refl eq_refl eq_refl)
    as (result & H1 & H2 & H3 & H4 & H5).
  eexists. exists result. split; [reflexivity |]. repeat split; assumption.
Defined.

(** Where [save] raises: the error of a path that cannot be opened
    for writing is the error of [save], and nothing is written. *)
Lemma save_unopened (self : client.PixianAIResponse) (fp : unicode) (w : io.world)
    (e : pyexn) :
  io.locate (io.for_writing w) fp = Raise e ->
  client.save self fp w = (Raise e, w).
Proof.
  intros H. unfold client.save, mbind, io.io_mbind, io.io_bind, io.open_wb.
  rewrite H. reflexivity.
Qed.

(** The empty path cannot be opened, in any world. *)
Lemma save_empty_path (self : client.PixianAIResponse) (w : io.world) :
  client.save self [] w = (Raise (FileNotFoundError []), w).
Proof. apply save_unopened. reflexivity. Qed.

(** Where [save] returns: the file the path leads to holds the
    payload, and every other file is as it was. *)
Lemma save_opened (self : client.PixianAIResponse) (fp : unicode) (w : io.world)
    (file : io.node) :
  io.locate (io.for_writing w) fp = Ok file ->
  client.save self fp w
  = (Ok tt,
     {| io.for_reading := io.for_reading w; io.for_writing := io.for_writing w;
        io.disk := <[file := client.content self]> (io.disk w);
        io.network := io.network w; io.sent := io.sent w |}).
Proof.
  intros H. unfold client.save, mbind, io.io_mbind, io.io_bind, io.open_wb, io.write.
  rewrite H. simpl. do 2 f_equal.
  apply map_eq. intros other. destruct (decide (other = file)) as [-> | Hne].
  - rewrite lookup_alter_eq, !lookup_insert_eq. reflexivity.
  - rewrite lookup_alter_ne, !lookup_insert_ne by congruence. reflexivity.
Qed.




(** C10. Once the request has gone out and the library has returned a
    response, the call returns a result exactly when the status is 200;
    any other status, 201 and 204 among them, raises
    [PixianAIException]. *)
Theorem only_status_200_succeeds fr self a w r response :
  io.sent (snd (client.remove_background fr self a w)) = io.sent w ++ [r] ->
  io.network w r = Ok response ->
  (requests.status_code response = 200%Z ->
   fst (client.remove_background fr self a w)
   = Ok (client.new_PixianAIResponse (requests.content response)))
  /\
  (requests.status_code response <> 200%Z ->
   fst (client.remove_background fr self a w)
   = Raise (PixianAIException (requests.text response)))
  /\
  (requests.status_code response = 201%Z \/ requests.status_code response = 204%Z ->
   fst (client.remove_background fr self a w)
   = Raise (PixianAIException (requests.text response))).
Proof.
  intros Hsent Hnet.
  destruct (issued_call fr self a w r Hsent) as (_ & _ & -> & _).
  simpl. rewrite Hnet. simpl. unfold requests.codes_ok.
  split; [| split].
  - intros ->. reflexivity.
  - intros Hne. destruct (Z.eqb_spec (requests.status_code response) 200);
      [contradiction | reflexivity].
  - intros [-> | ->]; reflexivity.
Qed.

Lemma only_status_200_succeeds_witness :
  fst (client.remove_background example.no_floats example.me example.photo
         (example.world 204 ""))
  = Raise (PixianAIException []).
Proof.
  apply (proj2 (proj2 (only_status_200_succeeds example.no_floats example.me
                         example.photo (example.world 204 "") _ (example.reply 204 "")
                         eq_refl eq_refl))).
  right. reflexivity.
Defined.

(** X2. The range check on integers: a value passes exactly when it is 0
    or lies between the bounds, both included. *)
Theorem validate_param_int_range fr name (p lo hi : Z) :
  utils.validate_param fr name (VInt p) (utils.Tuple [VInt lo; VInt hi]) = Ok tt <->
  p = 0%Z \/ (lo <= p <= hi)%Z.
Proof.
  unfold utils.validate_param. simpl.
  destruct (Z.eqb_spec p 0) as [-> | Hne]; simpl.
  - split; auto.
  - destruct (Z.leb_spec lo p) as [Hlo | Hlo]; simpl.
    + destruct (Z.leb_spec p hi) as [Hhi | Hhi]; simpl.
      * split; auto.
      * split; [discriminate | lia].
    + split; [discriminate | lia].
Qed.

(* ================================================================== *)
(** * Further properties of the code *)
(* ================================================================== *)

(** ** validate_wh *)

Lemma lang_optional r z :
  re.lang (utils.optional r) z <-> z = [] \/ re.lang r z.
Proof.
  unfold utils.optional. cbn [re.lang re.within]. split.
  - intros ([|[|n]] & _ & Hn & H); [| | lia].
    + left. exact H.
    + right. destruct H as (x & y & Hx & -> & ->). rewrite app_nil_r. exact Hx.
  - intros [-> | H].
    + exists 0. split; [lia |]. split; [lia | reflexivity].
    + exists 1. split; [lia |]. split; [lia |].
      exists z, []. split; [exact H |]. split; [reflexivity |].
      symmetry. apply app_nil_r.
Qed.

Lemma lang_wh_number x : re.lang utils.wh_number x <-> grammar.number x.
Proof.
  unfold utils.wh_number, grammar.number, spec.decimal. cbn [re.lang]. split.
  - intros (a & y & Ha & Hy & ->). apply lang_digits in Ha.
    apply lang_optional in Hy as [-> | (p & b & -> & Hb & ->)].
    + left. rewrite app_nil_r. exact Ha.
    + right. exists a, b. apply lang_digits in Hb. auto.
  - intros [Ha | (a & b & Ha & Hb & ->)].
    + exists x, []. split; [apply lang_digits; exact Ha |].
      split; [apply lang_optional; left; reflexivity |].
      symmetry. apply app_nil_r.
    + exists a, (chr "." :: b). split; [apply lang_digits; exact Ha |].
      split; [| reflexivity]. apply lang_optional. right.
      exists [chr "."], b. split; [reflexivity |].
      split; [apply lang_digits; exact Hb | reflexivity].
Qed.

Lemma lang_wh_pattern s : re.lang utils.wh_pattern s <-> grammar.width_height s.
Proof.
  unfold utils.wh_pattern, grammar.width_height. cbn [re.lang]. split.
  - intros (a & y & Ha & (w & b & Hw & Hb & ->) & ->).
    exists a, w, b. rewrite <- !lang_wh_number, <- lang_spaces. auto.
  - intros (a & w & b & Ha & Hw & Hb & ->).
    exists a, (w ++ b). split; [apply lang_wh_number; exact Ha |].
    split; [| reflexivity]. exists w, b.
    rewrite lang_spaces, lang_wh_number. auto.
Qed.

(** X3. [validate_wh] accepts a string exactly when it is two numbers
    (digits, optionally a point and more digits) with whitespace
    between them and nothing before or after; it raises [ValueError]
    on every other string. Digits are the decimal digits of any script
    and whitespace is any Unicode whitespace: 1920 and 1080 pass with
    a space or an EM SPACE between them, in ASCII or in Arabic-Indic
    digits, and ["1920x1080"] does not. *)
Theorem validate_wh_two_numbers name s :
  (utils.validate_wh name (VStr s) = Ok tt <->
   grammar.width_height s)
  /\
  (utils.validate_wh name (VStr s) = Ok tt \/
   utils.validate_wh name (VStr s)
   = Raise (ValueError (u "Invalid value: " ++ name ++ u ". Width height provided: " ++ s)))
  /\
  utils.validate_wh name (VStr (u "1920 1080")) = Ok tt
  /\
  utils.validate_wh name (VStr (u "1920.5 1080.25")) = Ok tt
  /\
  utils.validate_wh name (VStr example.arabic_size) = Ok tt
  /\
  utils.validate_wh name (VStr example.em_space_size) = Ok tt
  /\
  utils.validate_wh name (VStr (u "1920x1080"))
  = Raise (ValueError (u "Invalid value: " ++ name
                       ++ u ". Width height provided: 1920x1080")).
Proof.
  split; [| split; [| repeat split; reflexivity]].
  - unfold utils.validate_wh. simpl.
    rewrite <- lang_wh_pattern, <- (fullmatch_lang utils.wh_pattern _ eq_refl).
    destruct (re.fullmatch utils.wh_pattern s); simpl.
    + split; reflexivity.
    + split; discriminate.
  - unfold utils.validate_wh. simpl.
    destruct (re.fullmatch utils.wh_pattern s); simpl; auto.
Qed.

(** ** enforce_types *)

Lemma check_types_cons sig name value rest :
  utils.check_types sig ((name, value) :: rest) =
  match typing.declared sig name with
  | Some expected_type =>
      if negb (isinstance value expected_type) then
        Raise (TypeError (u "Argument " ++ name ++ u " must be of type "
                          ++ annotation_str expected_type))
      else utils.check_types sig rest
  | None => utils.check_types sig rest
  end.
Proof.
  unfold typing.declared. simpl.
  destruct (List.find (fun e => text_eqb (fst e) name) sig) as [[n t] |]; reflexivity.
Qed.

(** One argument passes when it is an instance of its annotation, if
    its parameter has one, and the arguments after it pass. *)
Lemma check_types_step sig name value rest :
  utils.check_types sig ((name, value) :: rest) = Ok tt <->
  (forall expected_type,
     typing.declared sig name = Some expected_type ->
     isinstance value expected_type = true) /\
  utils.check_types sig rest = Ok tt.
Proof.
  rewrite check_types_cons.
  destruct (typing.declared sig name) as [t |].
  - destruct (isinstance value t) eqn:Hi; simpl.
    + split; [intros H; split; [intros t' [= <-]; exact Hi | exact H] | tauto].
    + split; [discriminate |]. intros [H _].
      specialize (H t eq_refl). congruence.
  - split; [intros H; split; [discriminate | exact H] | tauto].
Qed.

(** X4. The pass over the bound arguments succeeds exactly when every
    argument whose parameter has an annotation is an instance of it. *)
Theorem check_types_all_instances sig bound :
  utils.check_types sig bound = Ok tt <->
  forall name value expected_type,
    In (name, value) bound ->
    typing.declared sig name = Some expected_type ->
    isinstance value expected_type = true.
Proof.
  induction bound as [| [name value] rest IH].
  - simpl. split; [intros _ ? ? ? [] | reflexivity].
  - rewrite check_types_step, IH. split.
    + intros [Hhere Hrest] n v t [Heq | Hin] Hd.
      * injection Heq as <- <-. apply Hhere. exact Hd.
      * eapply Hrest; eassumption.
    + intros H. split.
      * intros t Hd. apply (H name value t); [left; reflexivity | exact Hd].
      * intros n v t Hin. apply H. right. exact Hin.
Qed.

(** X5. The error names the first argument, in the order of the
    signature, that is not an instance of its annotation. *)
Theorem check_types_first_offender sig before name value expected_type after :
  utils.check_types sig before = Ok tt ->
  typing.declared sig name = Some expected_type ->
  isinstance value expected_type = false ->
  utils.check_types sig (before ++ (name, value) :: after)
  = Raise (TypeError (u "Argument " ++ name ++ u " must be of type "
                      ++ annotation_str expected_type)).
Proof.
  intros Hbefore Hd Hno. induction before as [| [n v] rest IH].
  - simpl app. rewrite check_types_cons, Hd, Hno. reflexivity.
  - simpl app. rewrite check_types_cons in *.
    destruct (typing.declared sig n) as [t |]; [| apply IH; exact Hbefore].
    destruct (isinstance v t); [| discriminate]. apply IH. exact Hbefore.
Qed.

Lemma check_types_first_offender_witness :
  utils.check_types client.signature
    ([(u "image_path", VStr (u "photo.jpg")); (u "image_base64", VStr [])]
     ++ (u "image_url", VNone) :: [(u "max_pixels", VStr (u "many"))])
  = Raise (TypeError (u "Argument " ++ u "image_url" ++ u " must be of type "
                      ++ annotation_str T_str)).
Proof.
  apply (check_types_first_offender client.signature
           [(u "image_path", VStr (u "photo.jpg")); (u "image_base64", VStr [])]
           (u "image_url") VNone T_str [(u "max_pixels", VStr (u "many"))]); reflexivity.
Defined.

Lemma check_types_raises_type_error sig bound e :
  utils.check_types sig bound = Raise e -> exists message, e = TypeError message.
Proof.
  induction bound as [| [name value] rest IH]; [discriminate |].
  rewrite check_types_cons.
  destruct (typing.declared sig name) as [t |]; [| exact IH].
  destruct (isinstance value t); simpl; [exact IH |].
  intros H. injection H as <-. eauto.
Qed.

(** ** The type gate of remove_background *)

(** The eleven arguments, each against its declared type. *)
Lemma well_typed_instances a :
  call.well_typed a <->
  isinstance (client.image_path a) T_str = true /\
  isinstance (client.image_base64 a) T_str = true /\
  isinstance (client.image_url a) T_str = true /\
  isinstance (client.max_pixels a) T_int = true /\
  isinstance (client.background_color a) T_Union_str_None = true /\
  isinstance (client.result_crop_to_foreground a) T_bool = true /\
  isinstance (client.result_margin a) T_str = true /\
  isinstance (client.result_target_size a) T_Union_str_None = true /\
  isinstance (client.result_vertical_alignment a) T_str = true /\
  isinstance (client.output_format a) T_str = true /\
  isinstance (client.output_jpeg_quality a) T_int = true.
Proof.
  unfold call.well_typed, client.bind. rewrite !check_types_step. split.
  - intros (H1 & H2 & H3 & H4 & H5 & H6 & H7 & H8 & H9 & H10 & H11 & _).
    repeat split;
      [apply H1 | apply H2 | apply H3 | apply H4 | apply H5 | apply H6
       | apply H7 | apply H8 | apply H9 | apply H10 | apply H11]; reflexivity.
  - intros (H1 & H2 & H3 & H4 & H5 & H6 & H7 & H8 & H9 & H10 & H11).
    repeat split;
      try (intros t Hd; vm_compute in Hd; injection Hd as <-; assumption).
Qed.

(** X6. A call runs its body exactly when each argument is an instance
    of its declared type ([bool] counts as [int], [None] only where the
    type is optional); otherwise it raises [TypeError] and nothing else
    happens: no validation, no file opened, no request. *)
Theorem ill_typed_call_raises_type_error fr self a w :
  (call.well_typed a ->
   client.remove_background fr self a w = client.remove_background_body fr self a w)
  /\
  (~ (isinstance (client.image_path a) T_str = true /\
      isinstance (client.image_base64 a) T_str = true /\
      isinstance (client.image_url a) T_str = true /\
      isinstance (client.max_pixels a) T_int = true /\
      isinstance (client.background_color a) T_Union_str_None = true /\
      isinstance (client.result_crop_to_foreground a) T_bool = true /\
      isinstance (client.result_margin a) T_str = true /\
      isinstance (client.result_target_size a) T_Union_str_None = true /\
      isinstance (client.result_vertical_alignment a) T_str = true /\
      isinstance (client.output_format a) T_str = true /\
      isinstance (client.output_jpeg_quality a) T_int = true) ->
   exists message,
     client.remove_background fr self a w = (Raise (TypeError message), w)).
Proof.
  unfold client.remove_background, utils.enforce_types. split.
  - intros T. rewrite bind_lift. unfold call.well_typed in T. rewrite T. reflexivity.
  - intros Hno. rewrite <- well_typed_instances in Hno. unfold call.well_typed in Hno.
    rewrite bind_lift.
    destruct (utils.check_types client.signature (client.bind a)) as [[] | e] eqn:H.
    + contradiction.
    + apply check_types_raises_type_error in H as (message & ->). eauto.
Qed.

Lemma ill_typed_call_raises_type_error_witness :
  exists message,
    client.remove_background example.no_floats example.me example.text_pixels
      (example.world 200 "ok")
    = (Raise (TypeError message), example.world 200 "ok").
Proof.
  apply (proj2 (ill_typed_call_raises_type_error example.no_floats example.me
                  example.text_pixels (example.world 200 "ok"))).
  intros (_ & _ & _ & H & _). discriminate H.
Defined.

(** ** Which errors validation raises *)

Lemma param_exists_raises names params e :
  utils.param_exists names params = Raise e -> exists message, e = ValueError message.
Proof.
  unfold utils.param_exists. destruct (negb (any params)); [| discriminate].
  intros H. injection H as <-. eauto.
Qed.

Lemma validate_param_list_raises fr name param items e :
  utils.validate_param fr name param (utils.List items) = Raise e ->
  exists message, e = ValueError message.
Proof.
  unfold utils.validate_param. destruct (negb (contains items param)); [| discriminate].
  intros H. injection H as <-. eauto.
Qed.

Lemma validate_param_int_raises fr name param lo hi e :
  isinstance param T_int = true ->
  utils.validate_param fr name param (utils.Tuple [VInt lo; VInt hi]) = Raise e ->
  exists message, e = ValueError message.
Proof.
  intros T. unfold utils.validate_param.
  destruct param as [| b | n | f | s]; try discriminate T; simpl.
  - destruct b; simpl; [| discriminate].
    destruct (lo <=? 1)%Z; simpl; [destruct (1 <=? hi)%Z; simpl |];
      try discriminate; intros H; injection H as <-; eauto.
  - destruct (n =? 0)%Z; simpl; [discriminate |].
    destruct (lo <=? n)%Z; simpl; [destruct (n <=? hi)%Z; simpl |];
      try discriminate; intros H; injection H as <-; eauto.
Qed.

Lemma validate_hex_raises name color e :
  isinstance color T_Union_str_None = true ->
  (if truthy color then utils.validate_hex name color else Ok tt) = Raise e ->
  exists message, e = ValueError message.
Proof.
  intros T. destruct color as [| b | n | f | s]; try discriminate T.
  - discriminate.
  - destruct (truthy (VStr s)); [| discriminate].
    unfold utils.validate_hex. simpl.
    destruct (negb (re.match_ utils.hex_pattern s));
      [| discriminate].
    intros H. injection H as <-. eauto.
Qed.

Lemma validate_wh_raises name wh e :
  isinstance wh T_Union_str_None = true ->
  (if truthy wh then utils.validate_wh name wh else Ok tt) = Raise e ->
  exists message, e = ValueError message.
Proof.
  intros T. destruct wh as [| b | n | f | s]; try discriminate T.
  - discriminate.
  - destruct (truthy (VStr s)); [| discriminate].
    unfold utils.validate_wh. simpl.
    destruct (negb (re.fullmatch utils.wh_pattern s));
      [| discriminate].
    intros H. injection H as <-. eauto.
Qed.

Lemma validate_css_raises name css e :
  isinstance css T_str = true ->
  utils.validate_css name css = Raise e ->
  exists message, e = ValueError message.
Proof.
  intros T. destruct css as [| b | n | f | s]; try discriminate T.
  unfold utils.validate_css. simpl.
  destruct (negb (re.fullmatch utils.css_pattern s));
    [| discriminate].
  intros H. injection H as <-. eauto.
Qed.

(** X7. For well-typed arguments, a value that fails validation raises
    [ValueError], and does so before the image file is opened and
    before any request: the world is unchanged. *)
Theorem invalid_value_raises_value_error fr self a w :
  call.well_typed a ->
  ~ call.validated fr a ->
  exists message,
    client.remove_background fr self a w = (Raise (ValueError message), w).
Proof.
  intros T Hno.
  pose proof (proj1 (well_typed_instances a) T)
    as (T1 & T2 & T3 & T4 & T5 & T6 & T7 & T8 & T9 & T10 & T11).
  remember (client.remove_background fr self a w) as res eqn:Hres.
  unfold client.remove_background, utils.enforce_types,
    client.remove_background_body in Hres.
  rewrite bind_lift in Hres. unfold call.well_typed in T. rewrite T in Hres.
  check_step Hres H1.
  2:{ apply param_exists_raises in H1 as (m & ->). eauto. }
  check_step Hres H2.
  2:{ apply (validate_param_int_raises _ _ _ _ _ _ T4) in H2 as (m & ->). eauto. }
  check_step Hres H3.
  2:{ apply (validate_hex_raises _ _ _ T5) in H3 as (m & ->). eauto. }
  check_step Hres H4.
  2:{ apply validate_param_list_raises in H4 as (m & ->). eauto. }
  check_step Hres H5.
  2:{ apply (validate_css_raises _ _ _ T7) in H5 as (m & ->). eauto. }
  check_step Hres H6.
  2:{ apply (validate_wh_raises _ _ _ T8) in H6 as (m & ->). eauto. }
  check_step Hres H7.
  2:{ apply validate_param_list_raises in H7 as (m & ->). eauto. }
  check_step Hres H8.
  2:{ apply validate_param_list_raises in H8 as (m & ->). eauto. }
  check_step Hres H9.
  2:{ apply (validate_param_int_raises _ _ _ _ _ _ T11) in H9 as (m & ->). eauto. }
  destruct Hno. split; [exact T |].
  split; [exact (proj1 (param_exists_given _ _) H1) |].
  split; [exact H2 |]. repeat split; assumption.
Qed.

Lemma invalid_value_raises_value_error_witness :
  exists message,
    client.remove_background example.no_floats example.me
      (call.with_output_jpeg_quality (VInt 101) example.photo) (example.world 200 "ok")
    = (Raise (ValueError message), example.world 200 "ok").
Proof.
  apply (invalid_value_raises_value_error example.no_floats example.me
           (call.with_output_jpeg_quality (VInt 101) example.photo)
           (example.world 200 "ok")).
  - reflexivity.
  - intros (_ & _ & _ & _ & _ & _ & _ & _ & _ & H). discriminate H.
Defined.

(** X8. The check of [result_crop_to_foreground] against
    [[True, False]] cannot fail once the type gate has passed. *)
Theorem crop_check_never_fails fr a :
  call.well_typed a ->
  utils.validate_param fr (u "result_crop_to_foreground")
    (client.result_crop_to_foreground a) (utils.List [VBool true; VBool false]) = Ok tt.
Proof.
  intros T. apply well_typed_instances in T as (_ & _ & _ & _ & _ & T & _).
  destruct (client.result_crop_to_foreground a) as [| [] | | |];
    try discriminate T; reflexivity.
Qed.

Lemma crop_check_never_fails_witness :
  utils.validate_param example.no_floats (u "result_crop_to_foreground")
    (client.result_crop_to_foreground example.photo)
    (utils.List [VBool true; VBool false]) = Ok tt.
Proof.
  apply (crop_check_never_fails example.no_floats example.photo). reflexivity.
Defined.

(** ** The request on the wire *)

(** A validated call, spelled out: which source it takes and what it
    sends. *)
Lemma validated_call fr self a w :
  call.validated fr a ->
  client.remove_background fr self a w =
  if truthy (client.image_path a) then
    match io.open_rb (client.image_path a) w with
    | (Ok image, _) =>
        wire.send w (wire.request self (<[u "image" := image]> ∅) (wire.payload a))
    | (Raise e, _) => (Raise e, w)
    end
  else if truthy (client.image_base64 a) then
    wire.send w (wire.request self ∅
                   (<[u "image.base64" := client.image_base64 a]> (wire.payload a)))
  else if truthy (client.image_url a) then
    wire.send w (wire.request self ∅
                   (<[u "image.url" := client.image_url a]> (wire.payload a)))
  else wire.send w (wire.request self ∅ (wire.payload a)).
Proof.
  intros (T & S & M & O1 & O2 & O3 & O4 & O5 & O6 & O7).
  unfold client.remove_background, utils.enforce_types, client.remove_background_body.
  unfold call.well_typed in T.
  rewrite bind_lift, T.
  rewrite bind_lift, (proj2 (param_exists_given _ _) S).
  rewrite bind_lift, M. rewrite bind_lift, O1. rewrite bind_lift, O2.
  rewrite bind_lift, O3. rewrite bind_lift, O4. rewrite bind_lift, O5.
  rewrite bind_lift, O6. rewrite bind_lift, O7.
  cbv zeta. unfold wire.send, wire.request, wire.payload.
  destruct (truthy (client.image_path a)).
  - rewrite bind_assoc.
    pose proof (open_rb_world (client.image_path a) w) as Hw.
    destruct (io.open_rb (client.image_path a) w) as [[image | e] w'];
      simpl in Hw; subst w'; [| reflexivity].
    rewrite bind_ret. cbv beta iota. apply post_answer.
  - destruct (truthy (client.image_base64 a));
      [| destruct (truthy (client.image_url a))];
      rewrite bind_ret; cbv beta iota; apply post_answer.
Qed.

(** X9. When [image_path] names a file that does not exist, a call
    that passes validation raises [FileNotFoundError] and sends
    nothing, whether or not [image_base64] or [image_url] is given as
    well: the other sources are no fallback. Nor are they when the
    path cannot be opened at all: the call raises the error of the
    open. *)
Theorem missing_file_no_fallback fr self a w path :
  call.validated fr a ->
  client.image_path a = VStr path ->
  path <> [] ->
  (forall file,
     io.locate (io.for_reading w) path = Ok file ->
     io.disk w !! file = None ->
     client.remove_background fr self a w = (Raise (FileNotFoundError path), w))
  /\
  (forall e,
     io.locate (io.for_reading w) path = Raise e ->
     client.remove_background fr self a w = (Raise e, w)).
Proof.
  intros V Hp Hne. rewrite (validated_call fr self a w V), Hp.
  assert (truthy (VStr path) = true) as ->
    by (destruct path; [contradiction | reflexivity]).
  unfold io.open_rb. split.
  - intros file -> ->. reflexivity.
  - intros e ->. reflexivity.
Qed.

Lemma missing_file_no_fallback_witness :
  client.remove_background example.no_floats example.me
    (call.with_sources (VStr (u "absent.jpg")) (VStr (u "QUJD"))
       (VStr (u "http://example.com/image.jpg")) client.defaults)
    (example.world 200 "ok")
  = (Raise (FileNotFoundError (u "absent.jpg")), example.world 200 "ok").
Proof.
  apply (proj1 (missing_file_no_fallback example.no_floats example.me
                  (call.with_sources (VStr (u "absent.jpg")) (VStr (u "QUJD"))
                     (VStr (u "http://example.com/image.jpg")) client.defaults)
                  (example.world 200 "ok") (u "absent.jpg")
                  ltac:(repeat split; reflexivity) eq_refl ltac:(discriminate))
           3%positive);
    reflexivity.
Defined.

(** X10. A call never touches the files, the paths that lead to them
    or the network's behaviour, and it sends at most one request:
    afterwards the list of sent requests is the old one, or the old
    one with one request added. *)
Theorem call_sends_at_most_one_request fr self a w :
  io.disk (snd (client.remove_background fr self a w)) = io.disk w /\
  io.for_reading (snd (client.remove_background fr self a w)) = io.for_reading w /\
  io.for_writing (snd (client.remove_background fr self a w)) = io.for_writing w /\
  io.network (snd (client.remove_background fr self a w)) = io.network w /\
  (io.sent (snd (client.remove_background fr self a w)) = io.sent w \/
   exists r, io.sent (snd (client.remove_background fr self a w)) = io.sent w ++ [r]).
Proof.
  destruct (remove_background_cases fr self a w)
    as [(e & -> & _) | (_ & _ & r & -> & _)]; simpl.
  - auto 6.
  - do 4 (split; [reflexivity |]). right. exists r. reflexivity.
Qed.

Lemma payload_keys a : dom (wire.payload a) = wire.option_keys.
Proof.
  unfold wire.payload, wire.option_keys.
  rewrite !dom_insert_L, dom_empty_L. simpl. set_solver.
Qed.

(** X11. Every request that goes out is addressed to the fixed
    endpoint, carries the client's credentials, and its payload has
    exactly the eight option fields plus at most one image field:
    none when a file is attached, else [image.base64], else
    [image.url]. The only attachment is [image], present exactly when
    [image_path] is non-empty. *)
Theorem request_shape fr self a w r :
  io.sent (snd (client.remove_background fr self a w)) = io.sent w ++ [r] ->
  requests.url r = (u "https://api.pixian.ai/api/v2/remove-background") /\
  requests.auth r = (client.api_id self, client.api_secret self) /\
  dom (requests.data r) = wire.option_keys ∪ wire.image_keys a /\
  dom (requests.files r) = wire.file_keys a.
Proof.
  intros Hsent.
  destruct (issued_call fr self a w r Hsent) as (V & _ & _ & _).
  rewrite (validated_call fr self a w V) in Hsent.
  unfold wire.image_keys, wire.file_keys.
  destruct (truthy (client.image_path a)).
  - destruct (io.open_rb (client.image_path a) w) as [[image | e] w'].
    + simpl in Hsent. apply app_inv_head in Hsent. injection Hsent as <-.
      simpl. rewrite payload_keys, dom_insert_L, dom_empty_L.
      repeat split; set_solver.
    + simpl in Hsent. apply app_one_neq in Hsent. destruct Hsent.
  - destruct (truthy (client.image_base64 a));
      [| destruct (truthy (client.image_url a))];
      simpl in Hsent; apply app_inv_head in Hsent; injection Hsent as <-;
      simpl; rewrite ?dom_insert_L, payload_keys, dom_empty_L;
      repeat split; set_solver.
Qed.

Lemma request_shape_witness :
  exists r,
    requests.url r = (u "https://api.pixian.ai/api/v2/remove-background") /\
    requests.auth r = (client.api_id example.me, client.api_secret example.me) /\
    dom (requests.data r) = wire.option_keys ∪ wire.image_keys example.three_sources /\
    dom (requests.files r) = wire.file_keys example.three_sources.
Proof.
  eexists.
  apply (request_shape example.no_floats example.me example.three_sources
           (example.world 200 "ok")).
  reflexivity.
Defined.

(** ** Outcomes *)

(** X12. A call returns a result only after one request that the
    server answered with status 200, and the result's bytes, as a
    [bytes] value and as its [content] attribute, are that response's
    body. *)
Theorem result_only_after_200 fr self a w result :
  fst (client.remove_background fr self a w) = Ok result ->
  exists r response,
    io.sent (snd (client.remove_background fr self a w)) = io.sent w ++ [r] /\
    io.network w r = Ok response /\
    requests.status_code response = 200%Z /\
    client.content result = requests.content response /\
    client.bytes_value result = requests.content response.
Proof.
  intros Hok.
  destruct (remove_background_cases fr self a w)
    as [(e & He & _) | (_ & _ & r & Hr & _)].
  - rewrite He in Hok. discriminate.
  - rewrite Hr in *. simpl in *. unfold call.answer in Hok.
    destruct (io.network w r) as [response | e] eqn:Hnet; [| discriminate].
    exists r, response. split; [reflexivity |]. split; [exact Hnet |].
    unfold requests.codes_ok in Hok.
    destruct (Z.eqb_spec (requests.status_code response) 200); [| discriminate].
    injection Hok as <-. auto.
Qed.

Lemma result_only_after_200_witness :
  exists r response,
    io.sent (snd (client.remove_background example.no_floats example.me example.photo
                    (example.world 200 "ok"))) = [] ++ [r] /\
    io.network (example.world 200 "ok") r = Ok response /\
    requests.status_code response = 200%Z /\
    list_byte_of_string "ok" = requests.content response /\
    list_byte_of_string "ok" = requests.content response.
Proof.
  apply (result_only_after_200 example.no_floats example.me example.photo
           (example.world 200 "ok")
           (client.new_PixianAIResponse (list_byte_of_string "ok"))).
  reflexivity.
Defined.

(** X13. An error of the HTTP library itself is not wrapped: when the
    request has gone out and the library raises, the call raises the
    same exception. *)
Theorem transport_error_propagates fr self a w r e :
  io.sent (snd (client.remove_background fr self a w)) = io.sent w ++ [r] ->
  io.network w r = Raise e ->
  fst (client.remove_background fr self a w) = Raise e.
Proof.
  intros Hsent Hnet.
  destruct (issued_call fr self a w r Hsent) as (_ & _ & -> & _).
  simpl. rewrite Hnet. reflexivity.
Qed.

Lemma transport_error_propagates_witness :
  fst (client.remove_background example.no_floats example.me example.photo
         (example.offline (example.world 200 "ok")))
  = Raise (RequestException (u "connection refused")).
Proof.
  eapply (transport_error_propagates example.no_floats example.me example.photo
            (example.offline (example.world 200 "ok"))); reflexivity.
Defined.

(** ** save *)

(** X14. The result of a successful call, saved to a path that can be
    opened for writing, leaves in the file the path leads to the body
    of the response, and reading the path back, when it opens that
    file, yields the body; saving sends no request. *)
Theorem saved_result_is_response_body fr self a w result fp file :
  fst (client.remove_background fr self a w) = Ok result ->
  io.locate (io.for_writing w) fp = Ok file ->
  io.locate (io.for_reading w) fp = Ok file ->
  exists r response,
    io.network w r = Ok response /\
    let after_call := snd (client.remove_background fr self a w) in
    let after_save := snd (client.save result fp after_call) in
    fst (client.save result fp after_call) = Ok tt /\
    io.disk after_save !! file = Some (requests.content response) /\
    io.read fp after_save = (Ok (requests.content response), after_save) /\
    io.sent after_save = io.sent w ++ [r].
Proof.
  intros Hok Hw Hr.
  destruct (remove_background_cases fr self a w)
    as [(e & He & _) | (_ & _ & r & Hcall & _)].
  - rewrite He in Hok. discriminate.
  - rewrite Hcall in *. simpl in Hok. unfold call.answer in Hok.
    destruct (io.network w r) as [response | e] eqn:Hnet; [| discriminate].
    destruct (requests.status_code response =? requests.codes_ok)%Z; [| discriminate].
    injection Hok as <-. exists r, response. split; [exact Hnet |].
    cbv zeta. simpl snd.
    rewrite (save_opened (client.new_PixianAIResponse (requests.content response)) fp
               (call.issued w r) file Hw).
    simpl. split; [reflexivity |]. split; [apply lookup_insert_eq |].
    split; [| reflexivity].
    unfold io.read, io.open_rb, mbind, io.io_mbind, io.io_bind. simpl.
    rewrite Hr, lookup_insert_eq. reflexivity.
Qed.

Lemma saved_result_is_response_body_witness :
  exists r response,
    io.network (example.world 200 "ok") r = Ok response /\
    let after_call :=
      snd (client.remove_background example.no_floats example.me example.photo
             (example.world 200 "ok")) in
    let after_save :=
      snd (client.save (client.new_PixianAIResponse (list_byte_of_string "ok"))
             (u "out.png") after_call) in
    fst (client.save (client.new_PixianAIResponse (list_byte_of_string "ok"))
           (u "out.png") after_call) = Ok tt /\
    io.disk after_save !! 2%positive = Some (requests.content response) /\
    io.read (u "out.png") after_save = (Ok (requests.content response), after_save) /\
    io.sent after_save = io.sent (example.world 200 "ok") ++ [r].
Proof.
  apply (saved_result_is_response_body example.no_floats example.me example.photo
           (example.world 200 "ok")
           (client.new_PixianAIResponse (list_byte_of_string "ok")) (u "out.png")
           2%positive); reflexivity.
Defined.

(** X15. Of two saves, the later one wins in its own file and leaves
    any other file as the earlier one wrote it. Files count, not the
    spelling of paths: when both paths lead to one file, every path to
    it reads the later payload. *)
Theorem later_save_wins (first second : client.PixianAIResponse)
    (fp1 fp2 : unicode) (file1 file2 : io.node) w :
  io.locate (io.for_writing w) fp1 = Ok file1 ->
  io.locate (io.for_writing w) fp2 = Ok file2 ->
  let after := snd (client.save second fp2 (snd (client.save first fp1 w))) in
  io.disk after !! file2 = Some (client.content second) /\
  (file1 <> file2 -> io.disk after !! file1 = Some (client.content first)) /\
  (forall fp,
     io.locate (io.for_reading w) fp = Ok file2 ->
     io.read fp after = (Ok (client.content second), after)) /\
  (forall fp,
     file1 <> file2 ->
     io.locate (io.for_reading w) fp = Ok file1 ->
     io.read fp after = (Ok (client.content first), after)).
Proof.
  intros H1 H2. cbv zeta.
  rewrite (save_opened first fp1 w file1 H1). simpl snd.
  match goal with
  | |- context [client.save second fp2 ?w1] =>
      rewrite (save_opened second fp2 w1 file2 H2)
  end.
  simpl.
  split; [apply lookup_insert_eq |].
  split; [intros Hne; rewrite lookup_insert_ne by congruence; apply lookup_insert_eq |].
  split.
  - intros fp Hr. unfold io.read, io.open_rb, mbind, io.io_mbind, io.io_bind. simpl.
    rewrite Hr, lookup_insert_eq. reflexivity.
  - intros fp Hne Hr. unfold io.read, io.open_rb, mbind, io.io_mbind, io.io_bind. simpl.
    rewrite Hr, lookup_insert_ne by congruence. rewrite lookup_insert_eq. reflexivity.
Qed.

Lemma later_save_wins_witness :
  io.read (u "out.png")
    (snd (client.save (client.new_PixianAIResponse (list_byte_of_string "second"))
            (u "./out.png")
            (snd (client.save (client.new_PixianAIResponse (list_byte_of_string "first"))
                    (u "out.png") (example.world 200 "ok")))))
  = (Ok (list_byte_of_string "second"),
     snd (client.save (client.new_PixianAIResponse (list_byte_of_string "second"))
            (u "./out.png")
            (snd (client.save (client.new_PixianAIResponse (list_byte_of_string "first"))
                    (u "out.png") (example.world 200 "ok"))))).
Proof.
  apply (proj1 (proj2 (proj2
           (later_save_wins (client.new_PixianAIResponse (list_byte_of_string "first"))
              (client.new_PixianAIResponse (list_byte_of_string "second"))
              (u "out.png") (u "./out.png") 2%positive 2%positive
              (example.world 200 "ok") eq_refl eq_refl)))
           (u "out.png")).
  reflexivity.
Defined.

(** ** validate_param *)

Lemma contains_strings opts s :
  contains (map VStr opts) (VStr s) = true <-> In s opts.
Proof.
  unfold contains. rewrite existsb_exists. split.
  - intros (v & Hin & Heq). apply in_map_iff in Hin as (t & <- & Hin).
    simpl in Heq. apply text_eqb_eq in Heq as ->. exact Hin.
  - intros Hin. exists (VStr s). split; [apply in_map; exact Hin |].
    simpl. apply text_eqb_refl.
Qed.

Lemma str_strings fr opts : map (str fr) (map VStr opts) = opts.
Proof. induction opts as [| t opts IH]; simpl; [| rewrite IH]; reflexivity. Qed.

(** X16. Against a list of strings, a string passes exactly when it is
    one of them (compared exactly, case included); otherwise the error
    lists the options in their order, separated by a comma and a
    space. *)
Theorem validate_param_string_options fr name s opts :
  (utils.validate_param fr name (VStr s) (utils.List (map VStr opts)) = Ok tt <->
   In s opts)
  /\
  (~ In s opts ->
   utils.validate_param fr name (VStr s) (utils.List (map VStr opts))
   = Raise (ValueError (u "Invalid value: " ++ name ++ u ". Valid options are: "
                        ++ join (u ", ") opts))).
Proof.
  unfold utils.validate_param. rewrite str_strings.
  destruct (contains (map VStr opts) (VStr s)) eqn:C; simpl.
  - apply contains_strings in C. split; [tauto | intros H; contradiction].
  - assert (~ In s opts) as Hno.
    { intros Hin. apply contains_strings in Hin. congruence. }
    split; [split; [discriminate | contradiction] | reflexivity].
Qed.

(** X17. Options that are neither a tuple of two items nor a list are
    refused whatever the value, also when the value is one of the
    items: a tuple of three options always raises. *)
Theorem validate_param_refuses_other_options fr name param :
  utils.validate_param fr name param utils.Other
  = Raise (ValueError (u "Invalid value and options provided for " ++ name))
  /\
  (forall items,
     length items <> 2 ->
     utils.validate_param fr name param (utils.Tuple items)
     = Raise (ValueError (u "Invalid value and options provided for " ++ name))).
Proof.
  split; [reflexivity |]. intros items Hlen.
  destruct items as [| x [| y [| z items]]]; try reflexivity.
  simpl in Hlen. contradiction.
Qed.

(** X18. For an argument that passed the [int] type gate and integer
    bounds: an [int] passes the range check when it is 0 or within
    the bounds; [False] always passes and [True] passes when 1 is
    within the bounds. Nothing else passes, and the failure is the
    range [ValueError]. *)
Theorem validate_param_int_or_bool fr name v (lo hi : Z) :
  isinstance v T_int = true ->
  exists n,
    typing.int_value v = Some n /\
    (utils.validate_param fr name v (utils.Tuple [VInt lo; VInt hi]) = Ok tt <->
     n = 0%Z \/ (lo <= n <= hi)%Z) /\
    (~ (n = 0%Z \/ (lo <= n <= hi)%Z) ->
     utils.validate_param fr name v (utils.Tuple [VInt lo; VInt hi])
     = Raise (ValueError (u "Invalid value: " ++ name ++ u ". Valid range is: "
                          ++ str fr (VInt lo) ++ u " to " ++ str fr (VInt hi)))).
Proof.
  intros T. destruct v as [| b | n | f | s]; try discriminate T.
  - exists (Z.b2z b). split; [reflexivity |].
    unfold utils.validate_param. destruct b; simpl.
    + destruct (Z.leb_spec lo 1) as [Llo | Llo]; simpl;
        [destruct (Z.leb_spec 1 hi) as [Lhi | Lhi]; simpl |].
      * split; [split; auto | intros Hno; exfalso; apply Hno; lia].
      * split; [split; [discriminate | lia] | reflexivity].
      * split; [split; [discriminate | lia] | reflexivity].
    + split; [split; auto | intros Hno; exfalso; apply Hno; auto].
  - exists n. split; [reflexivity |].
    unfold utils.validate_param. simpl.
    destruct (Z.eqb_spec n 0) as [-> | Hnz]; simpl.
    + split; [split; auto | intros Hno; exfalso; apply Hno; auto].
    + destruct (Z.leb_spec lo n) as [Llo | Llo]; simpl;
        [destruct (Z.leb_spec n hi) as [Lhi | Lhi]; simpl |].
      * split; [split; auto | intros Hno; exfalso; apply Hno; lia].
      * split; [split; [discriminate | lia] | reflexivity].
      * split; [split; [discriminate | lia] | reflexivity].
Qed.

Lemma validate_param_int_or_bool_witness :
  exists n,
    typing.int_value (VBool true) = Some n /\
    (utils.validate_param example.no_floats (u "max_pixels") (VBool true)
       (utils.Tuple [VInt 100; VInt 25000000]) = Ok tt <->
     n = 0%Z \/ (100 <= n <= 25000000)%Z) /\
    (~ (n = 0%Z \/ (100 <= n <= 25000000)%Z) ->
     utils.validate_param example.no_floats (u "max_pixels") (VBool true)
       (utils.Tuple [VInt 100; VInt 25000000])
     = Raise (ValueError (u "Invalid value: " ++ u "max_pixels" ++ u ". Valid range is: "
                          ++ str example.no_floats (VInt 100) ++ u " to "
                          ++ str example.no_floats (VInt 25000000)))).
Proof.
  apply (validate_param_int_or_bool example.no_floats (u "max_pixels") (VBool true)
           100 25000000).
  reflexivity.
Defined.

(** ** The optional pattern arguments *)

Lemma passes_iff (b : bool) (e : pyexn) :
  (if negb b then Raise e else Ok tt) = Ok tt <-> b = true.
Proof. destruct b; simpl; split; auto; discriminate. Qed.

Lemma hex_pattern_colours s :
  re.match_ utils.hex_pattern s = true <->
  spec.hex_color s \/
  exists colour, spec.hex_color colour /\ s = colour ++ [re.newline].
Proof.
  rewrite match_hex_pattern. split.
  - intros (h & Hlen & Hall & [-> | ->]).
    + left. exists h. auto.
    + right. exists (chr "#" :: h). split; [exists h; auto | reflexivity].
  - intros [(h & Hlen & Hall & ->) | (colour & (h & Hlen & Hall & ->) & ->)];
      exists h; auto.
Qed.

(** X19. [background_color] and [result_target_size] are validated only
    when non-empty: [None] and the empty string pass unchecked, and a
    non-empty string passes exactly when its validator accepts it. *)
Theorem optional_patterns_skip_empty v :
  isinstance v T_Union_str_None = true ->
  ((if truthy v then utils.validate_hex (u "background_color") v else Ok tt) = Ok tt <->
   v = VNone \/ v = VStr [] \/
   exists s, v = VStr s /\
             (spec.hex_color s \/
              exists colour, spec.hex_color colour /\
                             s = colour ++ [re.newline]))
  /\
  ((if truthy v then utils.validate_wh (u "result_target_size") v else Ok tt) = Ok tt <->
   v = VNone \/ v = VStr [] \/
   exists s, v = VStr s /\ grammar.width_height s).
Proof.
  intros T. destruct v as [| b | n | f | s]; try discriminate T; simpl.
  - split; split; auto.
  - destruct s as [| c s]; simpl.
    + split; split; auto.
    + remember (c :: s) as t eqn:Ht.
      assert (Hne : t <> []) by (subst t; discriminate).
      clear c s Ht. rename t into s.
      unfold utils.validate_hex, utils.validate_wh. simpl.
      rewrite !passes_iff, hex_pattern_colours,
        (fullmatch_lang utils.wh_pattern _ eq_refl), lang_wh_pattern.
      split; split.
      * intros H. right. right. exists s. auto.
      * intros [H | [H | (s' & H & Hs)]]; try discriminate; [congruence |].
        injection H as <-. exact Hs.
      * intros H. right. right. exists s. auto.
      * intros [H | [H | (s' & H & Hs)]]; try discriminate; [congruence |].
        injection H as <-. exact Hs.
Qed.

Lemma optional_patterns_skip_empty_witness :
  (if truthy (VStr (u "#AABBCC"))
   then utils.validate_hex (u "background_color") (VStr (u "#AABBCC")) else Ok tt)
  = Ok tt
  /\
  (if truthy (VStr (u "1920 1080"))
   then utils.validate_wh (u "result_target_size") (VStr (u "1920 1080")) else Ok tt)
  = Ok tt
  /\
  ~ grammar.width_height (u "#AABBCC").
Proof.
  split; [| split].
  - apply (proj1 (optional_patterns_skip_empty (VStr (u "#AABBCC")) eq_refl)).
    right. right. exists (u "#AABBCC"). split; [reflexivity |].
    left. exists (u "AABBCC"). split; [reflexivity |]. split; [| reflexivity].
    repeat constructor.
  - apply (proj2 (optional_patterns_skip_empty (VStr (u "1920 1080")) eq_refl)).
    right. right. exists (u "1920 1080"). split; [reflexivity |].
    exists (u "1920"), (u " "), (u "1080").
    split; [left; split; [discriminate | repeat constructor] |].
    split; [split; [discriminate | repeat constructor] |].
    split; [left; split; [discriminate | repeat constructor] | reflexivity].
  - intros H.
    assert (Hv : VStr (u "#AABBCC") = VNone \/ VStr (u "#AABBCC") = VStr [] \/
                 exists s, VStr (u "#AABBCC") = VStr s /\ grammar.width_height s)
      by (right; right; exists (u "#AABBCC"); split; [reflexivity | exact H]).
    apply (proj2 (optional_patterns_skip_empty (VStr (u "#AABBCC")) eq_refl)) in Hv.
    discriminate Hv.
Defined.
